(** * Stock_Market_Analysis: snapshot loading, ranking, aggregation,
      caching and forecast slicing

    A shallow embedding of the Python sources

      - [dashboard.py]                 ([load_stock_data], [create_visualizations], [main])
      - [pages/2_Market_Overview.py]   ([get_most_active_stocks], [main])
      - [pages/3_Stock_Comparison.py]  ([get_stock_metrics])
      - [pages/4_Price_Prediction.py]  ([load_historical_data],
                                        [train_prophet_model], [plot_prediction], [main])

    Numbers.  The program computes on IEEE doubles (numpy [float64]).  The
    embedding keeps the special values that decide control flow and
    results (infinities and NaN) and takes finite values as exact
    rationals; rounding within the range of doubles and the sign of zero
    are not represented.  The percent change, whose quotient can leave the
    range of doubles, overflows to an infinity as the code's does; texts
    that the code formats from an intermediate floating-point result (the
    market capitalisation in billions, the rounded bar labels, the
    predicted change and the confidence) are left out of the pages'
    models.

    Exceptions.  Python exceptions are values of [exn]; a computation that
    may raise has type [exn + A] ([inl] raises, [inr] returns). *)

From Stdlib Require Import QArith ZArith String List Lia Permutation Sorted.
From Stdlib Require Import DecimalString Qabs Lqa Ascii.
From stdpp Require Import gmap strings.

Open Scope string_scope.
Open Scope list_scope.

(** ** Numbers: doubles with their special values *)

Inductive num : Type :=
| Fin (q : Q)
| PInf
| NInf
| NaN.

Definition inf_of_sign (c : comparison) : num :=
  match c with
  | Gt => PInf
  | Lt => NInf
  | Eq => NaN
  end.

Definition num_neg (x : num) : num :=
  match x with
  | Fin q => Fin (- q)
  | PInf => NInf
  | NInf => PInf
  | NaN => NaN
  end.

Definition num_add (x y : num) : num :=
  match x, y with
  | NaN, _ | _, NaN => NaN
  | Fin a, Fin b => Fin (a + b)
  | PInf, NInf | NInf, PInf => NaN
  | PInf, _ | _, PInf => PInf
  | NInf, _ | _, NInf => NInf
  end.

Definition num_sub (x y : num) : num := num_add x (num_neg y).

Definition num_mul (x y : num) : num :=
  match x, y with
  | NaN, _ | _, NaN => NaN
  | Fin a, Fin b => Fin (a * b)
  | Fin a, PInf | PInf, Fin a => inf_of_sign (a ?= 0)%Q
  | Fin a, NInf | NInf, Fin a => inf_of_sign (0 ?= a)%Q
  | PInf, PInf | NInf, NInf => PInf
  | PInf, NInf | NInf, PInf => NInf
  end.

(** Division never raises on doubles: a zero divisor gives an infinity
    of the sign of the dividend, and [0 / 0] gives NaN. *)
Definition num_div (x y : num) : num :=
  match x, y with
  | NaN, _ | _, NaN => NaN
  | Fin a, Fin b =>
      if Qeq_bool b 0 then inf_of_sign (a ?= 0)%Q else Fin (a / b)
  | Fin _, PInf | Fin _, NInf => Fin 0
  | PInf, Fin b => if Qle_bool 0 b then PInf else NInf
  | NInf, Fin b => if Qle_bool 0 b then NInf else PInf
  | _, _ => NaN
  end.

Definition num_of_Z (z : Z) : num := Fin (inject_Z z).

Definition is_nan (x : num) : bool :=
  match x with NaN => true | _ => false end.

Definition is_finite (x : num) : bool :=
  match x with Fin _ => true | _ => false end.

(** Python truthiness of a float: everything but zero is true (NaN too). *)
Definition truthy (x : num) : bool :=
  match x with
  | Fin q => negb (Qeq_bool q 0)
  | _ => true
  end.

(** The range of doubles: a result whose magnitude reaches
    [2^1024 - 2^970] rounds to the infinity of its sign. *)
Definition overflow_bound : Q := inject_Z (2 ^ 1024 - 2 ^ 970).

Definition to_double (x : num) : num :=
  match x with
  | Fin q =>
      if Qle_bool overflow_bound (Qabs q)
      then (if Qle_bool 0 q then PInf else NInf)
      else Fin q
  | _ => x
  end.

(** The sign of a number; NaN and zero have none. *)
Definition num_positive (x : num) : Prop :=
  match x with
  | Fin c => (0 < c)%Q
  | PInf => True
  | _ => False
  end.

Definition num_negative (x : num) : Prop :=
  match x with
  | Fin c => (c < 0)%Q
  | NInf => True
  | _ => False
  end.

(** ** Exceptions *)

Inductive exn : Type :=
| KeyError
| IndexError
| ValueError
| OtherError (msg : string).

Definition raises (A : Type) : Type := (exn + A)%type.

Definition bind {A B : Type} (m : raises A) (k : A -> raises B) : raises B :=
  match m with
  | inl e => inl e
  | inr a => k a
  end.

Notation "'let!' x ':=' m 'in' k" := (bind m (fun x => k))
  (at level 10, x name, m at level 100, k at level 200).

Definition succeeds {A : Type} (m : raises A) : bool :=
  match m with inr _ => true | inl _ => false end.

(** ** Positional indexing: [.iloc[i]] and the slice [s[start:]] *)

(** [l.iloc[i]]: a negative [i] counts from the end; out of range raises
    [IndexError]. *)
Definition iloc {A : Type} (l : list A) (i : Z) : raises A :=
  let j := (if i <? 0 then Z.of_nat (length l) + i else i)%Z in
  if (j <? 0)%Z then inl IndexError
  else match nth_error l (Z.to_nat j) with
       | Some a => inr a
       | None => inl IndexError
       end.

(** [s[start:]]: a negative [start] counts from the end and is clamped
    at the beginning; a start beyond the end gives the empty slice. *)
Definition slice_from {A : Type} (l : list A) (start : Z) : list A :=
  let n := Z.of_nat (length l) in
  let s := (if start <? 0 then Z.max (n + start) 0 else Z.min start n)%Z in
  skipn (Z.to_nat s) l.

(** ** The quote source (yfinance) as seen by [load_stock_data] *)

(** One session of one symbol: the two columns the loader reads. *)
Record bar : Type := mkBar {
  Close : num;
  Volume : num
}.

(** What [yf.download] returns: for one ticker a frame with flat columns,
    for several a frame whose columns are grouped by ticker. *)
Inductive download : Type :=
| Flat (rows : list bar)
| Grouped (cols : gmap string (list bar)).

(** A row selected by [.iloc]: of a flat frame, a bar; of a grouped frame,
    a series keyed by (ticker, column), where ['Close'] is no key. *)
Inductive session : Type :=
| BarRow (b : bar)
| MultiRow.

(** The number of rows of a grouped frame: its tickers share one date
    index. *)
Definition grouped_rows (cols : gmap string (list bar)) : nat :=
  map_fold (fun _ rows n => Nat.max (length rows) n) 0%nat cols.

Definition data_iloc (data : download) (i : Z) : raises session :=
  match data with
  | Flat rows => let! b := iloc rows i in inr (BarRow b)
  | Grouped cols =>
      let! _ := iloc (repeat tt (grouped_rows cols)) i in inr MultiRow
  end.

(** [data[symbol]] *)
Definition data_getitem (data : download) (symbol : string) : raises (list bar) :=
  match data with
  | Flat _ => inl KeyError
  | Grouped cols =>
      match cols !! symbol with
      | Some rows => inr rows
      | None => inl KeyError
      end
  end.

Definition session_close (s : session) : raises num :=
  match s with BarRow b => inr (Close b) | MultiRow => inl KeyError end.

Definition session_volume (s : session) : raises num :=
  match s with BarRow b => inr (Volume b) | MultiRow => inl KeyError end.

(** [ticker.info]: a dictionary in which every key may be absent. *)
Record info : Type := mkInfo {
  info_sector : option string;
  info_marketCap : option num;
  info_trailingPE : option num;
  info_dividendYield : option num;
  info_shortName : option string
}.

(** [d.get(key, default)] *)
Definition get {A : Type} (field : option A) (default : A) : A :=
  match field with Some a => a | None => default end.

(** ** The snapshot frame *)

Record row : Type := mkRow {
  symbol : string;
  name : string;
  sector : string;
  price : num;
  change : num;
  volume : num;
  market_cap : num;
  pe_ratio : option num;
  dividend_yield : num
}.

(** A DataFrame built from a list of dictionaries: its rows in order of
    arrival, indexed 0, 1, 2, ... *)
Definition frame : Type := list row.

(** ** [load_stock_data] (dashboard.py, repeated in every page) *)

(** [change = ((price - prev_price) / prev_price) * 100]: a difference,
    a quotient and a product, each of which is a double again. *)
Definition pct_change (price prev_price : num) : num :=
  to_double
    (num_mul
       (to_double (num_div (to_double (num_sub price prev_price)) prev_price))
       (num_of_Z 100)).

Definition symbols : list string :=
  [ "AAPL"; "MSFT"; "GOOGL"; "AMZN"; "META"; "TSLA"; "NVDA"; "JPM";
    "JNJ"; "V"; "PG"; "UNH"; "HD"; "BAC"; "MA"; "DIS"; "NFLX"; "ADBE";
    "CRM"; "INTC"; "VZ"; "CSCO"; "PFE"; "KO"; "PEP"; "WMT"; "MRK" ].

Section Loader.

(** The symbol list is a constant of the source; the loader is stated
    over any list so that small batches can be run. *)
Variable syms : list string.
Variable data : download.
Variable ticker_info : string -> raises info.

(** [today_data] and [yesterday_data]: the last two sessions. *)
Definition select_days (sym : string) : raises (session * session) :=
  if (length syms =? 1)%nat
  then (let! t := data_iloc data (-1) in
        let! y := data_iloc data (-2) in
        inr (t, y))
  else (let! f := data_getitem data sym in
        let! t := iloc f (-1) in
        let! f' := data_getitem data sym in
        let! y := iloc f' (-2) in
        inr (BarRow t, BarRow y)).

(** The body of the inner [try] for one symbol. *)
Definition process_symbol (sym : string) : raises row :=
  let! days := select_days sym in
  let today_data := fst days in
  let yesterday_data := snd days in
  let! inf := ticker_info sym in
  let! price := session_close today_data in
  let! prev_price := session_close yesterday_data in
  let change := pct_change price prev_price in
  let sector := get (info_sector inf) "Unknown" in
  let market_cap := get (info_marketCap inf) (num_of_Z 0) in
  let pe_ratio := info_trailingPE inf in
  let dividend_yield := get (info_dividendYield inf) (num_of_Z 0) in
  let dividend_yield :=
    if truthy dividend_yield
    then num_mul dividend_yield (num_of_Z 100) else dividend_yield in
  let! vol := session_volume today_data in
  inr {| symbol := sym;
         name := get (info_shortName inf) sym;
         sector := sector;
         price := price;
         change := change;
         volume := vol;
         market_cap := market_cap;
         pe_ratio := pe_ratio;
         dividend_yield := dividend_yield |}.

(** The [for] loop: a symbol whose body raised is logged and skipped.
    Returns [stock_data] and the warnings, both in loop order. *)
Fixpoint collect (todo : list string) : list row * list (string * exn) :=
  match todo with
  | [] => ([], [])
  | sym :: rest =>
      let '(stock_data, warnings) := collect rest in
      match process_symbol sym with
      | inr r => (r :: stock_data, warnings)
      | inl e => (stock_data, (sym, e) :: warnings)
      end
  end.

End Loader.

(** The whole function: [None] when [yf.download] itself raised. *)
Definition load_stock_data (syms : list string)
    (yf_download : list string -> raises download)
    (ticker_info : string -> raises info) : option frame * list (string * exn) :=
  match yf_download syms with
  | inl _ => (None, [])
  | inr data =>
      let '(stock_data, warnings) := collect syms data ticker_info syms in
      (Some stock_data, warnings)
  end.

(** ** Ranking: [df.nlargest(n, col)] and [df.nsmallest(n, col)]

    pandas, with the default [keep='first']: the rows ordered by the
    column, largest (smallest) first; rows with equal values stay in their
    order of appearance; rows whose value is NaN are never ranked before
    a row with a value and come last, in order of appearance; the first
    [n] rows of that ranking are returned, all of them when the frame has
    fewer. *)

(** [x <= y] on doubles; false as soon as one side is NaN. *)
Definition num_leb (x y : num) : bool :=
  match x, y with
  | NaN, _ | _, NaN => false
  | NInf, _ | _, PInf => true
  | Fin a, Fin b => Qle_bool a b
  | _, _ => false
  end.

Definition num_eqb (x y : num) : bool := num_leb x y && num_leb y x.

Definition notna (x : num) : bool := negb (is_nan x).

Section Ranking.

Variable col : row -> num.

(** [before r h]: [r], arriving earlier, is ranked before [h]. *)
Definition before_desc (r h : row) : bool := num_leb (col h) (col r).
Definition before_asc (r h : row) : bool := num_leb (col r) (col h).

Fixpoint insert_by (before : row -> row -> bool) (r : row) (l : list row)
  : list row :=
  match l with
  | [] => [r]
  | h :: t => if before r h then r :: l else h :: insert_by before r t
  end.

(** A stable sort: each row is put before the rows that arrived later
    and do not beat it. *)
Fixpoint sort_by (before : row -> row -> bool) (l : list row) : list row :=
  match l with
  | [] => []
  | r :: t => insert_by before r (sort_by before t)
  end.

Definition ranking (before : row -> row -> bool) (df : frame) : frame :=
  sort_by before (List.filter (fun r => notna (col r)) df)
  ++ List.filter (fun r => is_nan (col r)) df.

Definition nlargest (n : nat) (df : frame) : frame :=
  firstn n (ranking before_desc df).

Definition nsmallest (n : nat) (df : frame) : frame :=
  firstn n (ranking before_asc df).

End Ranking.

(** [df.nlargest(10, 'change')], [df.nsmallest(10, 'change')]
    (dashboard.py, [main] and [create_visualizations]). *)
Definition top_performers (df : frame) : frame := nlargest change 10 df.
Definition bottom_performers (df : frame) : frame := nsmallest change 10 df.

(** [get_most_active_stocks] (2_Market_Overview.py) *)
Definition get_most_active_stocks (df : frame) (n : nat) : frame :=
  nlargest volume n df.

(** The complement of a selection, as the specification's permutation
    property uses it: the rows of [df] whose symbol the selection does
    not hold. *)
Definition complement (sel df : frame) : frame :=
  List.filter (fun r => negb (existsb (String.eqb (symbol r)) (map symbol sel))) df.

(** The order of a ranking, largest first: [a] may stand before [b] when
    [b] has no value or a value that is not larger.  Smallest first alike. *)
Definition desc_order (col : row -> num) (a b : row) : Prop :=
  is_nan (col b) = true \/ num_leb (col b) (col a) = true.

Definition asc_order (col : row -> num) (a b : row) : Prop :=
  is_nan (col b) = true \/ num_leb (col a) (col b) = true.

(** The rows whose value in the column equals [v]; for [v] NaN, the rows
    without a value. *)
Definition tied (col : row -> num) (v : num) (r : row) : bool :=
  if is_nan v then is_nan (col r) else num_eqb (col r) v.

(** The order the specification asks of [top_n]: larger change first and,
    among equal changes, the smaller symbol first. *)
Definition spec_top_order (a b : row) : Prop :=
  num_leb (change b) (change a) = true /\
  (num_eqb (change a) (change b) = true ->
   String.leb (symbol a) (symbol b) = true).

(** ** Aggregates: [Series.sum()] and [Series.mean()] (2_Market_Overview.py)

    pandas skips missing values: they are replaced by zero in the sum and
    left out of the count; the mean of a series with no value is NaN. *)

(** The [pe_ratio] column: [None] is the missing value of a float column. *)
Definition pe_value (r : row) : num := get (pe_ratio r) NaN.

Definition fillna0 (x : num) : num := if is_nan x then num_of_Z 0 else x.

Definition series_sum (s : list num) : num :=
  fold_right (fun x acc => num_add (fillna0 x) acc) (num_of_Z 0) s.

Definition series_count (s : list num) : nat :=
  length (List.filter notna s).

Definition series_mean (s : list num) : num :=
  let count := series_count s in
  if (0 <? count)%nat
  then num_div (series_sum s) (num_of_Z (Z.of_nat count))
  else NaN.

Definition avg_pe (df : frame) : num := series_mean (map pe_value df).

(** *** The format [f"{x:.2f}"] *)

Definition digits (n : N) : string :=
  DecimalString.NilZero.string_of_uint (N.to_uint n).

Definition two_digits (n : N) : string :=
  if (n <? 10)%N then ("0" ++ digits n)%string else digits n.

(** The nearest integer, ties to the even one. *)
Definition round_half_even (q : Q) : Z :=
  let fl := (Qnum q / Zpos (Qden q))%Z in
  let rm := (Qnum q mod Zpos (Qden q))%Z in
  match (2 * rm ?= Zpos (Qden q))%Z with
  | Lt => fl
  | Gt => (fl + 1)%Z
  | Eq => if Z.even fl then fl else (fl + 1)%Z
  end.

Definition format_2f (x : num) : string :=
  match x with
  | NaN => "nan"
  | PInf => "inf"
  | NInf => "-inf"
  | Fin q =>
      let cents := Z.to_N (round_half_even (Qabs q * 100)) in
      ((if Qle_bool 0 q then "" else "-")
       ++ digits (cents / 100) ++ "." ++ two_digits (cents mod 100))%string
  end.

(** The text of the "Average P/E" card. *)
Definition render_avg_pe (df : frame) : string := format_2f (avg_pe df).

(** ** Per-symbol lookup (3_Stock_Comparison.py, 4_Price_Prediction.py) *)

(** [df[df['symbol'] == sym]] *)
Definition select_symbol (df : frame) (sym : string) : frame :=
  List.filter (fun r => String.eqb (symbol r) sym) df.

Record metrics : Type := mkMetrics {
  m_price : num;
  m_change : num;
  m_volume : num;
  m_market_cap : num;
  m_pe_ratio : option num;
  m_dividend_yield : num;
  m_sector : string
}.

Definition get_stock_metrics (df : frame) (sym : string) : raises metrics :=
  let! stock_data := iloc (select_symbol df sym) 0 in
  inr {| m_price := price stock_data;
         m_change := change stock_data;
         m_volume := volume stock_data;
         m_market_cap := market_cap stock_data;
         m_pe_ratio := pe_ratio stock_data;
         m_dividend_yield := dividend_yield stock_data;
         m_sector := sector stock_data |}.

(** [stock_info = df[df['symbol'] == selected_stock].iloc[0]]
    (4_Price_Prediction.py, [main]) *)
Definition stock_info (df : frame) (selected_stock : string) : raises row :=
  iloc (select_symbol df selected_stock) 0.

(** ** Forecasting (4_Price_Prediction.py) *)

(** One row of the frame given to Prophet: day number and close. *)
Record obs : Type := mkObs {
  ds : Z;
  y : num
}.

Definition history : Type := list obs.

Record forecast_row : Type := mkForecast {
  f_ds : Z;
  yhat : num;
  yhat_lower : num;
  yhat_upper : num
}.

(** [load_historical_data]: [None] when the source raised or had no row. *)
Definition load_historical_data
    (ticker_history : string -> Z -> raises history)
    (sym : string) (years : Z) : option history :=
  match ticker_history sym years with
  | inl _ => None
  | inr [] => None
  | inr df => Some df
  end.

(** The errors of the specification's taxonomy that forecasting may
    report; the source defines no exception class of its own. *)
Inductive forecast_error : Type :=
| InsufficientDataError
| TrainingError
| Raised (e : exn).

Fixpoint insert_date (d : Z) (l : list Z) : list Z :=
  match l with
  | [] => [d]
  | h :: t =>
      match (d ?= h)%Z with
      | Lt => d :: l
      | Eq => l
      | Gt => h :: insert_date d t
      end
  end.

(** [df['ds'].unique()] followed by [sort_values()] *)
Definition sorted_unique (l : list Z) : list Z := fold_right insert_date [] l.

Definition max_date (l : list Z) : Z :=
  match l with
  | [] => 0%Z
  | h :: t => fold_left Z.max t h
  end.

Section Prophet.

(** The Prophet library is used through three methods.  Its numerical
    core is kept abstract: [fit_params] is everything [fit] does after
    counting rows (validation, scaling, optimisation; it raises on a
    frame it rejects), [predict_point] the point estimate and interval
    of a fitted model at one day. *)
Variable params : Type.
Variable fit_params : history -> raises params.
Variable predict_point : params -> Z -> num * num * num.

Record prophet : Type := mkProphet {
  fitted : params;
  history_dates : list Z
}.

(** [Prophet.fit]: the rows without a value are dropped, fewer than two
    remaining rows are refused, the dates of the frame are recorded. *)
Definition fit (df : history) : raises prophet :=
  let hist := List.filter (fun o => notna (y o)) df in
  if (length hist <? 2)%nat then inl ValueError
  else
    let dates := sorted_unique (map ds df) in
    let! p := fit_params hist in
    inr {| fitted := p; history_dates := dates |}.

(** [Prophet.make_future_dataframe(periods)], daily frequency, history
    included: the recorded dates, then the [periods] days that follow
    the last one. *)
Definition make_future_dataframe (m : prophet) (periods : nat) : list Z :=
  let last_date := max_date (history_dates m) in
  history_dates m
  ++ map (fun i => (last_date + Z.of_nat i)%Z) (seq 1 periods).

(** The days that [make_future_dataframe] adds to the recorded ones. *)
Definition future_days (m : prophet) (periods : nat) : list Z :=
  map (fun i => (max_date (history_dates m) + Z.of_nat i)%Z) (seq 1 periods).

(** [Prophet.predict]: one row per requested day. *)
Definition predict (m : prophet) (future : list Z) : list forecast_row :=
  map (fun d =>
         let '(point, lower, upper) := predict_point (fitted m) d in
         {| f_ds := d; yhat := point;
            yhat_lower := lower; yhat_upper := upper |})
      future.

(** [train_prophet_model] *)
Definition train_prophet_model (historical_data : history) (periods : nat)
  : raises (prophet * list forecast_row) :=
  let! model := fit historical_data in
  let future := make_future_dataframe model periods in
  let forecast := predict model future in
  inr (model, forecast).

(** The outcome in the vocabulary of the specification: whatever the
    function raises is an untyped Python exception. *)
Definition train_and_forecast (historical_data : history) (periods : nat)
  : forecast_error + (prophet * list forecast_row) :=
  match train_prophet_model historical_data periods with
  | inl e => inl (Raised e)
  | inr r => inr r
  end.

End Prophet.

Arguments fitted {params} _.
Arguments history_dates {params} _.
Arguments future_days {params} _ _.

(** [s[-prediction_days:]]: the part of a forecast column that
    [plot_prediction] shows. *)
Definition forecast_view {A : Type} (column : list A) (prediction_days : nat)
  : list A :=
  slice_from column (- Z.of_nat prediction_days).

(** The four traces of the figure, as (x, y) columns. *)
Record figure : Type := mkFigure {
  trace_historical : list Z * list num;
  trace_prediction : list Z * list num;
  trace_upper : list Z * list num;
  trace_lower : list Z * list num
}.

Definition plot_prediction (historical_data : history)
    (forecast : list forecast_row) (prediction_days : nat) : figure :=
  {| trace_historical := (map ds historical_data, map y historical_data);
     trace_prediction :=
       (forecast_view (map f_ds forecast) prediction_days,
        forecast_view (map yhat forecast) prediction_days);
     trace_upper :=
       (forecast_view (map f_ds forecast) prediction_days,
        forecast_view (map yhat_upper forecast) prediction_days);
     trace_lower :=
       (forecast_view (map f_ds forecast) prediction_days,
        forecast_view (map yhat_lower forecast) prediction_days) |}.

(** A forecaster to run the code on concrete histories: it accepts every
    frame and predicts the last observed close, with an empty interval. *)
Definition carry_fit (h : history) : raises num :=
  inr (List.last (map y h) NaN).

Definition carry_predict (p : num) (_ : Z) : num * num * num := (p, p, p).

(** ** The cache in front of the loaders *)

Section Cache.

Context {K : Type} `{Countable K} {V : Type}.

Record entry : Type := mkEntry {
  value : V;
  created : Z
}.

(** The key-to-entry mapping, and the record of every run of a compute
    function (key and time), kept to count the runs. *)
Record cache : Type := mkCache {
  entries : gmap K entry;
  computed : list (K * Z)
}.

Definition empty_cache : cache := {| entries := ∅; computed := [] |}.

Definition live (now ttl : Z) (e : entry) : bool :=
  bool_decide (now < created e + ttl)%Z.

Definition recompute (now : Z) (key : K) (compute_fn : Z -> V) (c : cache)
  : V * cache :=
  let v := compute_fn now in
  (v, {| entries := <[key := {| value := v; created := now |}]> (entries c);
         computed := (key, now) :: computed c |}).

(** Modelled from the spec: the TTL cache of section 4.1
    ([get_or_compute(key, ttl, compute_fn)]), for one caller at a time.
    The source has no cache of its own: it decorates its loaders with
    Streamlit's [st.cache_data(ttl=...)], which is not part of the
    repository.  A live entry is returned as it is; an absent or expired
    one is recomputed at the current time and stored. *)
Definition get_or_compute (now : Z) (key : K) (ttl : Z)
    (compute_fn : Z -> V) (c : cache) : V * cache :=
  match entries c !! key with
  | Some e => if live now ttl e then (value e, c)
              else recompute now key compute_fn c
  | None => recompute now key compute_fn c
  end.

(** [st.cache_data.clear()] ("Refresh Now" in dashboard.py) *)
Definition clear (c : cache) : cache :=
  {| entries := ∅; computed := computed c |}.

Definition runs (key : K) (c : cache) : nat :=
  length (List.filter (fun kt => bool_decide (fst kt = key)) (computed c)).

End Cache.

Arguments entry : clear implicits.
Arguments cache K {_ _} V.

(** [@st.cache_data(ttl=30)] on [load_stock_data],
    [@st.cache_data(ttl=3600)] on [load_historical_data]: an entry per
    function and arguments. *)
Definition snapshot_ttl : Z := 30.
Definition history_ttl : Z := 3600.

Definition fn_key : Type := string * option (string * Z).

Definition cached_load_stock_data (now : Z) (load : Z -> option frame)
    (c : cache fn_key (option frame)) : option frame * cache fn_key (option frame) :=
  get_or_compute now ("load_stock_data", None) snapshot_ttl load c.

Definition cached_load_historical_data (now : Z)
    (load : Z -> string -> Z -> option history) (sym : string) (years : Z)
    (c : cache fn_key (option history))
  : option history * cache fn_key (option history) :=
  get_or_compute now ("load_historical_data", Some (sym, years)) history_ttl
    (fun t => load t sym years) c.

(** ** Number formats of the cards *)

Definition num_abs (x : num) : num :=
  match x with
  | Fin q => Fin (Qabs q)
  | PInf | NInf => PInf
  | NaN => NaN
  end.

(** The thousands separator of the format [,]: the digits are walked
    from the right, and a comma is put after every third one that has a
    digit to its left. *)
Fixpoint commas (rev_digits : list ascii) (k : nat) : list ascii :=
  match rev_digits with
  | [] => []
  | d :: rest =>
      match k with
      | 3%nat => ","%char :: d :: commas rest 1
      | _ => d :: commas rest (S k)
      end
  end.

Definition group_thousands (s : string) : string :=
  string_of_list_ascii (rev (commas (rev (list_ascii_of_string s)) 0)).

Definition sign_of (q : Q) : string := if Qle_bool 0 q then "" else "-".

(** [f"{x:,.2f}"] *)
Definition format_comma_2f (x : num) : string :=
  match x with
  | NaN => "nan"
  | PInf => "inf"
  | NInf => "-inf"
  | Fin q =>
      let cents := Z.to_N (round_half_even (Qabs q * 100)) in
      (sign_of q ++ group_thousands (digits (cents / 100))
       ++ "." ++ two_digits (cents mod 100))%string
  end.

(** [f"{x:,.0f}"] *)
Definition format_comma_0f (x : num) : string :=
  match x with
  | NaN => "nan"
  | PInf => "inf"
  | NInf => "-inf"
  | Fin q =>
      let units := Z.to_N (round_half_even (Qabs q)) in
      (sign_of q ++ group_thousands (digits units))%string
  end.

(** [f"{x:+.2f}"]: the sign is always written. *)
Definition format_signed_2f (x : num) : string :=
  match x with
  | NaN => "+nan"
  | PInf => "+inf"
  | NInf => "-inf"
  | Fin q =>
      let cents := Z.to_N (round_half_even (Qabs q * 100)) in
      ((if Qle_bool 0 q then "+" else "-")
       ++ digits (cents / 100) ++ "." ++ two_digits (cents mod 100))%string
  end.

(** [x >= 0] on a double: false for NaN. *)
Definition nonneg (x : num) : bool := num_leb (num_of_Z 0) x.

(** ** [display_stock_card] (dashboard.py) *)

(** The values interpolated into the card's markup, in reading order.
    The market capitalisation, which the card writes after dividing it by
    [1e9] in floating point, is not among them. *)
Record stock_card : Type := mkCard {
  card_class : string;
  card_symbol : string;
  card_sector : string;
  card_price : string;
  card_change_class : string;
  card_change : string;
  card_volume : string
}.

Definition display_stock_card (stock : row) (is_top_performer : bool)
  : stock_card :=
  let change_class :=
    if nonneg (change stock) then "positive-change" else "negative-change" in
  let change_symbol := if nonneg (change stock) then "↑" else "↓" in
  let card_class :=
    if is_top_performer then "top-performer" else "bottom-performer" in
  {| card_class := card_class;
     card_symbol := symbol stock;
     card_sector := sector stock;
     card_price := ("$" ++ format_comma_2f (price stock))%string;
     card_change_class := change_class;
     card_change :=
       (change_symbol ++ " " ++ format_2f (num_abs (change stock)) ++ "%")%string;
     card_volume := format_comma_0f (volume stock) |}.

(** ** [create_visualizations] (dashboard.py)

    The frame behind the bar chart: the top performers labelled
    ['Top 10'] followed by the bottom performers labelled ['Bottom 10']. *)
Definition create_visualizations (df : frame) : list (row * string) :=
  map (fun r => (r, "Top 10")) (top_performers df)
  ++ map (fun r => (r, "Bottom 10")) (bottom_performers df).

(** ** [main] (dashboard.py): what is shown for a loaded frame *)

Inductive dashboard_page : Type :=
| NoDataAvailable
| Overview (top_cards bottom_cards : list stock_card)
           (chart : list (row * string)).

Definition dashboard_main (df : option frame) : dashboard_page :=
  match df with
  | None => NoDataAvailable
  | Some [] => NoDataAvailable
  | Some df =>
      Overview
        (map (fun stock => display_stock_card stock true) (nlargest change 10 df))
        (map (fun stock => display_stock_card stock false) (nsmallest change 10 df))
        (create_visualizations df)
  end.

(** ** Most active stocks (2_Market_Overview.py) *)

(** [create_active_stocks_chart]: one bar per row, with the symbol, the
    volume and the volume written out. *)
Definition create_active_stocks_chart (active_stocks : frame)
  : list (string * num * string) :=
  map (fun r => (symbol r, volume r, format_comma_0f (volume r))) active_stocks.

(** ** Stock comparison (3_Stock_Comparison.py) *)

(** [df[df['symbol'] == sym][col].iloc[0]] *)
Definition first_value (df : frame) (sym : string) (col : row -> num)
  : raises num :=
  iloc (map col (select_symbol df sym)) 0.

Definition metric_labels : list string :=
  ["Price"; "Change"; "Volume"; "Market Cap"; "P/E Ratio"; "Dividend Yield"].

(** The two bar traces: the metrics and the heights of the bars.  The
    texts on the bars, the heights rounded by [Series.round(2)] in
    floating point, are not represented. *)
Record comparison_chart : Type := mkChart {
  chart_x : list string;
  chart_y1 : list num;
  chart_y2 : list num
}.

(** [create_comparison_chart]: twelve lookups, then the frame of the two
    columns, in which a missing P/E is NaN. *)
Definition create_comparison_chart (df : frame) (stock1 stock2 : string)
  : raises comparison_chart :=
  let! p1 := first_value df stock1 price in
  let! c1 := first_value df stock1 change in
  let! v1 := first_value df stock1 volume in
  let! m1 := first_value df stock1 market_cap in
  let! e1 := first_value df stock1 pe_value in
  let! d1 := first_value df stock1 dividend_yield in
  let! p2 := first_value df stock2 price in
  let! c2 := first_value df stock2 change in
  let! v2 := first_value df stock2 volume in
  let! m2 := first_value df stock2 market_cap in
  let! e2 := first_value df stock2 pe_value in
  let! d2 := first_value df stock2 dividend_yield in
  let col1 := [p1; c1; v1; m1; e1; d1] in
  let col2 := [p2; c2; v2; m2; e2; d2] in
  inr {| chart_x := metric_labels; chart_y1 := col1; chart_y2 := col2 |}.

Definition radar_metrics : list (string * (row -> num)) :=
  [("price", price); ("change", change); ("volume", volume);
   ("market_cap", market_cap); ("pe_ratio", pe_value);
   ("dividend_yield", dividend_yield)].

(** [create_radar_chart]: the two rows are looked up first, then read
    metric by metric. *)
Definition create_radar_chart (df : frame) (stock1 stock2 : string)
  : raises (list string * list num * list num) :=
  let! stock1_data := iloc (select_symbol df stock1) 0 in
  let! stock2_data := iloc (select_symbol df stock2) 0 in
  inr (map fst radar_metrics,
       map (fun m => snd m stock1_data) radar_metrics,
       map (fun m => snd m stock2_data) radar_metrics).

(** [create_volume_distribution]: the volumes of the rows of each stock. *)
Definition create_volume_distribution (df : frame) (stock1 stock2 : string)
  : list num * list num :=
  (map volume (select_symbol df stock1), map volume (select_symbol df stock2)).

(** [create_sector_pie_chart]: the rows behind the pie,
    [df[df['symbol'].isin([stock1, stock2])]]. *)
Definition create_sector_pie_chart (df : frame) (stock1 stock2 : string)
  : frame :=
  List.filter
    (fun r => String.eqb (symbol r) stock1 || String.eqb (symbol r) stock2) df.

(** A column in which every value is [None] keeps its [None]s (it is a
    column of objects); as soon as one row has a number the column is a
    float column and [None] reads back as NaN. *)
Definition pe_is_object_column (df : frame) : bool :=
  forallb (fun r => match pe_ratio r with None => true | Some _ => false end) df.

(** ["{pe:.2f}".format(pe=...)] on a value read from the frame: [None]
    has no such format. *)
Definition format_pe (df : frame) (pe : option num) : raises string :=
  if pe_is_object_column df
  then inl (OtherError "TypeError: unsupported format string passed to NoneType.__format__")
  else inr (format_2f (get pe NaN)).

Record comparison_card : Type := mkComparisonCard {
  cc_symbol : string;
  cc_sector : string;
  cc_price : string;
  cc_colour : string;
  cc_change : string
}.

Definition comparison_card_of (sym : string) (m : metrics) : comparison_card :=
  {| cc_symbol := sym;
     cc_sector := m_sector m;
     cc_price := ("$" ++ format_comma_2f (m_price m))%string;
     cc_colour := if nonneg (m_change m) then "green" else "red";
     cc_change := (format_signed_2f (m_change m) ++ "%")%string |}.

(** What the page shows.  The "Market Cap" card, which writes the
    capitalisations after dividing them by [1e9] in floating point, is
    not represented. *)
Record comparison_view : Type := mkComparisonView {
  cv_card1 : comparison_card;
  cv_card2 : comparison_card;
  cv_chart : comparison_chart;
  cv_radar : list string * list num * list num;
  cv_volumes : list num * list num;
  cv_sectors : frame;
  cv_volume_text : string * string;
  cv_pe_text : string * string;
  cv_dividend_text : string * string
}.

Inductive comparison_page : Type :=
| ComparisonNoData
| SameStockWarning
| Comparison (view : comparison_view).

(** [main] (3_Stock_Comparison.py), for the frame the loader returned and
    the two symbols chosen in the select boxes. *)
Definition comparison_main (df : option frame) (stock1 stock2 : string)
  : raises comparison_page :=
  match df with
  | None => inr ComparisonNoData
  | Some [] => inr ComparisonNoData
  | Some df =>
      if String.eqb stock1 stock2 then inr SameStockWarning
      else
        let! stock1_metrics := get_stock_metrics df stock1 in
        let! stock2_metrics := get_stock_metrics df stock2 in
        let! fig := create_comparison_chart df stock1 stock2 in
        let! radar_fig := create_radar_chart df stock1 stock2 in
        let volume_fig := create_volume_distribution df stock1 stock2 in
        let sector_fig := create_sector_pie_chart df stock1 stock2 in
        let! pe1 := format_pe df (m_pe_ratio stock1_metrics) in
        let! pe2 := format_pe df (m_pe_ratio stock2_metrics) in
        inr (Comparison
               {| cv_card1 := comparison_card_of stock1 stock1_metrics;
                  cv_card2 := comparison_card_of stock2 stock2_metrics;
                  cv_chart := fig;
                  cv_radar := radar_fig;
                  cv_volumes := volume_fig;
                  cv_sectors := sector_fig;
                  cv_volume_text :=
                    (format_comma_0f (m_volume stock1_metrics),
                     format_comma_0f (m_volume stock2_metrics));
                  cv_pe_text := (pe1, pe2);
                  cv_dividend_text :=
                    (format_2f (m_dividend_yield stock1_metrics),
                     format_2f (m_dividend_yield stock2_metrics)) |})
  end.

(** ** [main] (4_Price_Prediction.py) *)

(** The three metrics, the texts of the values read from the frame and
    from the forecast, and the figure.  The texts of the two values that
    the page computes in floating point before formatting them (the
    predicted change and the confidence) are not represented. *)
Record prediction_view : Type := mkPredictionView {
  pv_current_price : num;
  pv_predicted_price : num;
  pv_price_change : num;
  pv_confidence : num;
  pv_current_text : string * string;
  pv_predicted_text : string;
  pv_figure : figure
}.

Inductive prediction_page : Type :=
| PredictionNoData
| PredictionNoHistory
| Prediction (view : prediction_view).

(** For the frame the loader returned, the stock chosen in the select box
    and the number of days chosen on the slider. *)
Definition prediction_main
    (params : Type) (fit_params : history -> raises params)
    (predict_point : params -> Z -> num * num * num)
    (ticker_history : string -> Z -> raises history)
    (df : option frame) (selected_stock : string) (prediction_days : nat)
  : raises prediction_page :=
  match df with
  | None => inr PredictionNoData
  | Some [] => inr PredictionNoData
  | Some df =>
      let! stock := stock_info df selected_stock in
      match load_historical_data ticker_history selected_stock 2 with
      | None => inr PredictionNoHistory
      | Some [] => inr PredictionNoHistory
      | Some historical_data =>
          let! trained :=
            train_prophet_model params fit_params predict_point
              historical_data prediction_days in
          let forecast := snd trained in
          let current_price := price stock in
          let! predicted_price := iloc (map yhat forecast) (-1) in
          let price_change := pct_change predicted_price current_price in
          let! upper := iloc (map yhat_upper forecast) (-1) in
          let! lower := iloc (map yhat_lower forecast) (-1) in
          let confidence := num_div (num_sub upper lower) (num_of_Z 2) in
          let fig :=
            plot_prediction historical_data forecast prediction_days in
          inr (Prediction
                 {| pv_current_price := current_price;
                    pv_predicted_price := predicted_price;
                    pv_price_change := price_change;
                    pv_confidence := confidence;
                    pv_current_text :=
                      (("$" ++ format_2f current_price)%string,
                       (format_2f (change stock) ++ "%")%string);
                    pv_predicted_text :=
                      ("$" ++ format_2f predicted_price)%string;
                    pv_figure := fig |})
      end
  end.

(** ** Concrete inputs *)

Definition session_of (close : Z) : bar :=
  {| Close := num_of_Z close; Volume := num_of_Z 1000 |}.

Definition no_info : info :=
  {| info_sector := None; info_marketCap := None; info_trailingPE := None;
     info_dividendYield := None; info_shortName := None |}.

(** A batch for A, B and C in which the adapter raises for B only. *)
Definition abc_symbols : list string := ["A"; "B"; "C"].

Definition abc_download (_ : list string) : raises download :=
  inr (Grouped (list_to_map
         [("A", [session_of 100; session_of 110]);
          ("B", [session_of 50; session_of 40]);
          ("C", [session_of 20; session_of 20])])).

Definition abc_info (sym : string) : raises info :=
  if String.eqb sym "B" then inl (OtherError "HTTP 404") else inr no_info.

(** A batch in which B closed at zero in the prior session. *)
Definition zero_prior_data : download :=
  Grouped (list_to_map
    [("A", [session_of 100; session_of 110]);
     ("B", [session_of 0; session_of 5])]).

Definition quote (sym : string) (chg : Z) : row :=
  {| symbol := sym; name := sym; sector := "Unknown";
     price := num_of_Z 100; change := num_of_Z chg; volume := num_of_Z 1000;
     market_cap := num_of_Z 0; pe_ratio := None;
     dividend_yield := num_of_Z 0 |}.

(** MSFT and GOOGL, in the order of [symbols], with the same change. *)
Definition tied_frame : frame := [quote "MSFT" 1; quote "GOOGL" 1; quote "AMZN" 2].

(** The first twelve of [symbols], in their order; MSFT and GOOGL tie
    among the ten largest changes. *)
Definition dozen_frame : frame :=
  [quote "AAPL" 5; quote "MSFT" 1; quote "GOOGL" 1; quote "AMZN" 2;
   quote "META" 3; quote "TSLA" 4; quote "NVDA" 6; quote "JPM" 7;
   quote "JNJ" 8; quote "V" 9; quote "PG" (-1); quote "UNH" (-2)].

(** A frame in which A and C have a P/E ratio and B has none. *)
Definition with_pe (r : row) (pe : Z) : row :=
  {| symbol := symbol r; name := name r; sector := sector r;
     price := price r; change := change r; volume := volume r;
     market_cap := market_cap r; pe_ratio := Some (num_of_Z pe);
     dividend_yield := dividend_yield r |}.

Definition pe_frame : frame :=
  [with_pe (quote "A" 1) 10; quote "B" 2; with_pe (quote "C" 3) 20].

(** Ten daily closes. *)
Definition history10 : history :=
  map (fun i => {| ds := Z.of_nat i; y := num_of_Z (100 + Z.of_nat i) |})
      (seq 0 10).

(** An upstream whose answer changes at time 120. *)
Definition upstream_at (t : Z) : option frame :=
  if (t <? 120)%Z then Some tied_frame else None.

(** The frame that [abc_download] returns. *)
Definition abc_data : download :=
  Grouped (list_to_map
    [("A", [session_of 100; session_of 110]);
     ("B", [session_of 50; session_of 40]);
     ("C", [session_of 20; session_of 20])]).

(** * Properties *)

(** ** Numbers *)

Lemma num_add_0_l (x : num) : num_add (num_of_Z 0) x = x.
Proof.
  destruct x as [[n d]| | |]; simpl; try reflexivity.
  unfold Qplus; simpl. rewrite Z.mul_1_r. reflexivity.
Qed.

Lemma Qmult_pos_sign (d k : Q) :
  (0 < k)%Q -> (0 < d * k <-> 0 < d)%Q.
Proof.
  intros Hk. split; intros Hd.
  - destruct (Qlt_le_dec 0 d) as [|Hle]; [assumption|exfalso].
    pose proof (Qmult_le_compat_r d 0 k Hle (Qlt_le_weak _ _ Hk)) as Hn.
    rewrite Qmult_0_l in Hn. apply (Qlt_not_le _ _ Hd), Hn.
  - apply Qmult_lt_0_compat; assumption.
Qed.

Lemma Qmult_neg_sign (d k : Q) :
  (0 < k)%Q -> (d * k < 0 <-> d < 0)%Q.
Proof.
  intros Hk.
  pose proof (Qmult_pos_sign (- d) k Hk) as [H1 H2].
  assert (- d * k == - (d * k))%Q as E by ring.
  rewrite E in H1, H2.
  split; intros Hd.
  - assert (0 < - d)%Q by (apply H1; lra). lra.
  - assert (0 < - (d * k))%Q by (apply H2; lra). lra.
Qed.

(** ** The snapshot loader *)

Section LoaderFacts.

Variable syms : list string.
Variable data : download.
Variable ticker_info : string -> raises info.

(** What a returned row was built from. *)
Lemma process_symbol_inv (sym : string) (r : row) :
  process_symbol syms data ticker_info sym = inr r ->
  exists today yesterday prev_price,
    select_days syms data sym = inr (today, yesterday) /\
    session_close today = inr (price r) /\
    session_close yesterday = inr prev_price /\
    symbol r = sym /\
    change r = pct_change (price r) prev_price.
Proof.
  unfold process_symbol, bind.
  destruct (select_days syms data sym) as [e|[today yesterday]]; [discriminate|].
  destruct (ticker_info sym) as [e|inf]; [discriminate|].
  simpl fst; simpl snd.
  destruct (session_close today) as [e|p] eqn:Ht; [discriminate|].
  destruct (session_close yesterday) as [e|q] eqn:Hy; [discriminate|].
  destruct (session_volume today) as [e|v]; [discriminate|].
  intros Hr. injection Hr as <-. simpl.
  exists today, yesterday, q. repeat split; assumption || reflexivity.
Qed.

Lemma collect_symbols (todo : list string) :
  map symbol (fst (collect syms data ticker_info todo))
  = List.filter (fun s => succeeds (process_symbol syms data ticker_info s)) todo.
Proof.
  induction todo as [|s rest IH]; [reflexivity|].
  simpl. destruct (collect syms data ticker_info rest) as [rows warns].
  destruct (process_symbol syms data ticker_info s) as [e|r] eqn:E; simpl.
  - exact IH.
  - apply process_symbol_inv in E as (_ & _ & _ & _ & _ & _ & Hs & _).
    rewrite Hs. f_equal. exact IH.
Qed.

Lemma collect_warnings (todo : list string) :
  map fst (snd (collect syms data ticker_info todo))
  = List.filter
      (fun s => negb (succeeds (process_symbol syms data ticker_info s))) todo.
Proof.
  induction todo as [|s rest IH]; [reflexivity|].
  simpl. destruct (collect syms data ticker_info rest) as [rows warns].
  destruct (process_symbol syms data ticker_info s) as [e|r]; simpl.
  - f_equal. exact IH.
  - exact IH.
Qed.

Lemma collect_rows (todo : list string) (r : row) :
  In r (fst (collect syms data ticker_info todo)) ->
  exists s, In s todo /\ process_symbol syms data ticker_info s = inr r.
Proof.
  induction todo as [|s rest IH]; simpl; [intros []|].
  destruct (collect syms data ticker_info rest) as [rows warns].
  destruct (process_symbol syms data ticker_info s) as [e|r'] eqn:E; simpl.
  - intros Hin. destruct (IH Hin) as (s' & Hs' & Hp). eauto.
  - intros [<-|Hin]; [eauto|].
    destruct (IH Hin) as (s' & Hs' & Hp). eauto.
Qed.

(** One row per symbol: the frame inherits it from the symbol list. *)
Lemma collect_symbols_nodup (todo : list string) :
  List.NoDup todo ->
  List.NoDup (map symbol (fst (collect syms data ticker_info todo))).
Proof.
  intros Hnd. rewrite collect_symbols. apply List.NoDup_filter. exact Hnd.
Qed.

(** A symbol with fewer than two sessions raises at [.iloc] and is
    skipped: no change is computed for it. *)
Lemma missing_prior_session_is_skipped (sym : string) (f : list bar) :
  length syms <> 1%nat ->
  data_getitem data sym = inr f ->
  (length f < 2)%nat ->
  process_symbol syms data ticker_info sym = inl IndexError.
Proof.
  intros Hlen Hf Hshort. unfold process_symbol, select_days.
  apply Nat.eqb_neq in Hlen. rewrite Hlen, Hf.
  destruct f as [|b [|b' f]]; [reflexivity|reflexivity|simpl in Hshort; lia].
Qed.

End LoaderFacts.

Lemma symbols_nodup : List.NoDup symbols.
Proof.
  apply NoDup_ListNoDup, (bool_decide_unpack _). vm_compute. exact I.
Qed.

(** *** The percent change *)

Lemma overflow_bound_pos : (0 < overflow_bound)%Q.
Proof. vm_compute. reflexivity. Qed.

Lemma to_double_of_special (x : num) : is_finite x = false -> to_double x = x.
Proof. destruct x; simpl; congruence. Qed.

Lemma to_double_nan (x : num) : is_nan (to_double x) = is_nan x.
Proof.
  destruct x as [q| | |]; try reflexivity. unfold to_double.
  destruct (Qle_bool overflow_bound (Qabs q)); [|reflexivity].
  destruct (Qle_bool 0 q); reflexivity.
Qed.

(** Overflow keeps the sign. *)
Lemma to_double_positive (x : num) :
  num_positive (to_double x) <-> num_positive x.
Proof.
  destruct x as [q| | |]; try reflexivity. unfold to_double.
  destruct (Qle_bool overflow_bound (Qabs q)) eqn:E; [|reflexivity].
  apply Qle_bool_iff in E. pose proof overflow_bound_pos as Hb.
  destruct (Qle_bool 0 q) eqn:E0; simpl.
  - apply Qle_bool_iff in E0. rewrite (Qabs_pos q E0) in E.
    split; [intros _|trivial]. eapply Qlt_le_trans; eassumption.
  - split; [tauto|]. intros Hq. apply Qlt_le_weak, Qle_bool_iff in Hq.
    congruence.
Qed.

Lemma to_double_negative (x : num) :
  num_negative (to_double x) <-> num_negative x.
Proof.
  destruct x as [q| | |]; try reflexivity. unfold to_double.
  destruct (Qle_bool overflow_bound (Qabs q)) eqn:E; [|reflexivity].
  destruct (Qle_bool 0 q) eqn:E0; simpl.
  - apply Qle_bool_iff in E0. split; [tauto|]. intros Hq.
    apply (Qlt_irrefl 0). eapply Qle_lt_trans; eassumption.
  - split; [intros _|trivial]. apply Qnot_le_lt. intros Hq.
    apply Qle_bool_iff in Hq. congruence.
Qed.

Lemma positive_prior_not_zero (q : Q) :
  (0 < q)%Q -> Qeq_bool q 0 = false /\ Qle_bool 0 q = true.
Proof.
  intros Hq. split.
  - destruct (Qeq_bool q 0) eqn:E; [|reflexivity].
    apply Qeq_bool_iff in E. rewrite E in Hq. exfalso. revert Hq. apply Qlt_irrefl.
  - apply Qle_bool_iff, Qlt_le_weak, Hq.
Qed.

Lemma num_sub_positive (p q : Q) :
  num_positive (num_sub (Fin p) (Fin q)) <-> (q < p)%Q.
Proof. simpl. split; intros; lra. Qed.

Lemma num_sub_negative (p q : Q) :
  num_negative (num_sub (Fin p) (Fin q)) <-> (p < q)%Q.
Proof. simpl. split; intros; lra. Qed.

Lemma num_div_positive (x : num) (q : Q) :
  (0 < q)%Q -> num_positive (num_div x (Fin q)) <-> num_positive x.
Proof.
  intros Hq. destruct (positive_prior_not_zero q Hq) as [E0 E1].
  destruct x as [d| | |]; simpl; rewrite ?E0, ?E1; try reflexivity.
  simpl. unfold Qdiv. apply Qmult_pos_sign, Qinv_lt_0_compat, Hq.
Qed.

Lemma num_div_negative (x : num) (q : Q) :
  (0 < q)%Q -> num_negative (num_div x (Fin q)) <-> num_negative x.
Proof.
  intros Hq. destruct (positive_prior_not_zero q Hq) as [E0 E1].
  destruct x as [d| | |]; simpl; rewrite ?E0, ?E1; try reflexivity.
  simpl. unfold Qdiv. apply Qmult_neg_sign, Qinv_lt_0_compat, Hq.
Qed.

Lemma times_100_positive (x : num) :
  num_positive (num_mul x (num_of_Z 100)) <-> num_positive x.
Proof.
  destruct x as [c| | |]; try reflexivity.
  simpl. apply Qmult_pos_sign. reflexivity.
Qed.

Lemma times_100_negative (x : num) :
  num_negative (num_mul x (num_of_Z 100)) <-> num_negative x.
Proof.
  destruct x as [c| | |]; try reflexivity.
  simpl. apply Qmult_neg_sign. reflexivity.
Qed.

Lemma num_div_nan (x : num) (q : Q) :
  (0 < q)%Q -> is_nan (num_div x (Fin q)) = is_nan x.
Proof.
  intros Hq. destruct (positive_prior_not_zero q Hq) as [E0 E1].
  destruct x as [d| | |]; simpl; rewrite ?E0, ?E1; reflexivity.
Qed.

Lemma times_100_nan (x : num) :
  is_nan (num_mul x (num_of_Z 100)) = is_nan x.
Proof. destruct x; reflexivity. Qed.

(** Two finite closes, the prior one positive: the change has the sign
    of [price - prev_price], whether or not it stays in range. *)
Lemma pct_change_sign (p q : Q) :
  (0 < q)%Q ->
  is_nan (pct_change (Fin p) (Fin q)) = false /\
  (num_positive (pct_change (Fin p) (Fin q)) <-> (q < p)%Q) /\
  (num_negative (pct_change (Fin p) (Fin q)) <-> (p < q)%Q).
Proof.
  intros Hq. unfold pct_change. split; [|split].
  - rewrite to_double_nan, times_100_nan, to_double_nan,
      (num_div_nan _ q Hq), to_double_nan. reflexivity.
  - rewrite to_double_positive, times_100_positive, to_double_positive,
      (num_div_positive _ q Hq), to_double_positive.
    apply num_sub_positive.
  - rewrite to_double_negative, times_100_negative, to_double_negative,
      (num_div_negative _ q Hq), to_double_negative.
    apply num_sub_negative.
Qed.

(** The quotient leaves the range of doubles for closes that are far
    apart: from [2^-1000] to [2^1000] the change is infinite. *)
Lemma pct_change_overflows :
  pct_change (Fin (inject_Z (2 ^ 1000))) (Fin (1 # 2 ^ 1000)) = PInf.
Proof. vm_compute. reflexivity. Qed.

Lemma num_div_by_zero (x : num) (q : Q) :
  (q == 0)%Q -> is_finite (num_div x (Fin q)) = false.
Proof.
  intros Hq.
  assert (Qeq_bool q 0 = true) as E0 by (apply Qeq_bool_iff, Hq).
  assert (Qle_bool 0 q = true) as E1
    by (apply Qle_bool_iff; rewrite Hq; apply Qle_refl).
  destruct x as [d| | |]; simpl; rewrite ?E0, ?E1; try reflexivity.
  destruct (d ?= 0)%Q; reflexivity.
Qed.

Lemma times_100_of_special (x : num) :
  is_finite x = false -> is_finite (num_mul x (num_of_Z 100)) = false.
Proof. destruct x; simpl; congruence. Qed.

Lemma pct_change_zero_prior (x : num) (q : Q) :
  (q == 0)%Q -> is_finite (pct_change x (Fin q)) = false.
Proof.
  intros Hq. unfold pct_change.
  pose proof (num_div_by_zero (to_double (num_sub x (Fin q))) q Hq) as Hd.
  rewrite (to_double_of_special _ Hd).
  pose proof (times_100_of_special _ Hd) as Hm.
  rewrite (to_double_of_special _ Hm). exact Hm.
Qed.

Lemma pct_change_nan_prior (x : num) : pct_change x NaN = NaN.
Proof.
  unfold pct_change.
  assert (num_div (to_double (num_sub x NaN)) NaN = NaN) as ->
    by (destruct (to_double (num_sub x NaN)); reflexivity).
  reflexivity.
Qed.

(** C1 (as amended).  Every row that [load_stock_data] builds carries
    [change = ((price - prev_price) / prev_price) * 100] of the last two
    closes, with no guard on the prior close.  When both closes are finite
    and the prior close is positive, the change is a number (never NaN;
    an infinity when the quotient leaves the range of doubles), positive
    exactly when the price exceeds the prior close and negative exactly
    when it is below it.  When the prior close is zero the change is still
    computed and is infinite or NaN; when the prior close is NaN the
    change is NaN. *)
Theorem change_sign_follows_prices
    (syms : list string) (data : download)
    (ticker_info : string -> raises info) (sym : string) (r : row) :
  process_symbol syms data ticker_info sym = inr r ->
  exists today yesterday prev_price,
    select_days syms data sym = inr (today, yesterday) /\
    session_close today = inr (price r) /\
    session_close yesterday = inr prev_price /\
    change r = pct_change (price r) prev_price /\
    (forall p q, price r = Fin p -> prev_price = Fin q -> (0 < q)%Q ->
       is_nan (change r) = false /\
       (num_positive (change r) <-> (q < p)%Q) /\
       (num_negative (change r) <-> (p < q)%Q)) /\
    (forall q, prev_price = Fin q -> (q == 0)%Q ->
       is_finite (change r) = false) /\
    (prev_price = NaN -> change r = NaN).
Proof.
  intros Hr.
  destruct (process_symbol_inv _ _ _ _ _ Hr)
    as (today & yesterday & prev & Hd & Ht & Hy & _ & Hc).
  exists today, yesterday, prev.
  repeat (split; [assumption|]).
  split; [|split].
  - intros p q Hp Hq Hpos. rewrite Hc, Hp, Hq. apply pct_change_sign, Hpos.
  - intros q Hq Hz. rewrite Hc, Hq. apply pct_change_zero_prior, Hz.
  - intros Hn. rewrite Hc, Hn. apply pct_change_nan_prior.
Qed.

Lemma change_sign_follows_prices_witness :
  exists r,
    process_symbol ["A"; "B"] zero_prior_data (fun _ => inr no_info) "A" = inr r /\
    num_positive (change r).
Proof.
  eexists. split; [vm_compute; reflexivity|].
  destruct (change_sign_follows_prices
              ["A"; "B"] zero_prior_data (fun _ => inr no_info) "A" _ eq_refl)
    as (today & yesterday & prev & Hd & Ht & Hy & _ & Hsign & _).
  vm_compute in Hd. injection Hd as <- <-.
  vm_compute in Hy. injection Hy as <-.
  destruct (Hsign 110%Q 100%Q eq_refl eq_refl eq_refl) as (_ & Hpos & _).
  apply Hpos. reflexivity.
Defined.

(** C1, the claim as written, fails: B closed at zero in the prior
    session and at 5 in the latest one; its row is built all the same, with
    an infinite change. *)
Lemma zero_prior_close_still_computed :
  select_days ["A"; "B"] zero_prior_data "B"
    = inr (BarRow (session_of 5), BarRow (session_of 0)) /\
  exists df r,
    fst (load_stock_data ["A"; "B"] (fun _ => inr zero_prior_data)
           (fun _ => inr no_info)) = Some df /\
    In r df /\ symbol r = "B" /\ change r = PInf.
Proof.
  split; [vm_compute; reflexivity|].
  eexists. eexists. split; [vm_compute; reflexivity|].
  split; [right; left; reflexivity|].
  split; reflexivity.
Qed.

(** C2.  When the download itself succeeds the loader returns a frame,
    whatever happens to single symbols: the frame holds, in the order of
    the symbol list, exactly the symbols whose processing did not raise,
    and every other symbol is logged once and left out. *)
Theorem load_stock_data_skips_failed_symbols
    (syms : list string) (yf_download : list string -> raises download)
    (ticker_info : string -> raises info) (data : download) :
  yf_download syms = inr data ->
  exists df warnings,
    load_stock_data syms yf_download ticker_info = (Some df, warnings) /\
    map symbol df
    = List.filter
        (fun s => succeeds (process_symbol syms data ticker_info s)) syms /\
    map fst warnings
    = List.filter
        (fun s => negb (succeeds (process_symbol syms data ticker_info s))) syms.
Proof.
  intros Hd. unfold load_stock_data. rewrite Hd.
  pose proof (collect_symbols syms data ticker_info syms) as Hs.
  pose proof (collect_warnings syms data ticker_info syms) as Hw.
  destruct (collect syms data ticker_info syms) as [rows warns].
  exists rows, warns. auto.
Qed.

(** The scenario of C2: the adapter raises for B only, the frame holds
    exactly A and C. *)
Lemma load_stock_data_abc :
  exists df warnings,
    load_stock_data abc_symbols abc_download abc_info = (Some df, warnings) /\
    map symbol df = ["A"; "C"] /\
    map fst warnings = ["B"].
Proof.
  destruct (load_stock_data_skips_failed_symbols
              abc_symbols abc_download abc_info _ eq_refl)
    as (df & warnings & Hl & Hs & Hw).
  exists df, warnings. split; [exact Hl|].
  split; [rewrite Hs|rewrite Hw]; vm_compute; reflexivity.
Defined.

(** ** Ranking *)

Lemma num_leb_total (x y : num) :
  notna x = true -> notna y = true -> num_leb x y = false -> num_leb y x = true.
Proof.
  destruct x as [a| | |], y as [b| | |]; unfold notna; simpl; try congruence.
  intros _ _ Hab.
  apply Qle_bool_iff. apply Qlt_le_weak, Qnot_le_lt.
  intros Hle. apply Qle_bool_iff in Hle. congruence.
Qed.

Lemma num_leb_trans (x y z : num) :
  num_leb x y = true -> num_leb y z = true -> num_leb x z = true.
Proof.
  destruct x as [a| | |], y as [b| | |], z as [c| | |]; simpl; try congruence.
  rewrite !Qle_bool_iff. apply Qle_trans.
Qed.

Lemma num_leb_notna (x y : num) :
  num_leb x y = true -> notna x = true /\ notna y = true.
Proof. destruct x, y; unfold notna; simpl; intros; split; congruence. Qed.

Lemma filter_none {A : Type} (P : A -> bool) (l : list A) :
  Forall (fun x => P x = false) l -> List.filter P l = [].
Proof.
  induction 1 as [|x l Hx _ IH]; simpl; [reflexivity|].
  rewrite Hx. exact IH.
Qed.

Lemma filter_all {A : Type} (P : A -> bool) (l : list A) :
  Forall (fun x => P x = true) l -> List.filter P l = l.
Proof.
  induction 1 as [|x l Hx _ IH]; simpl; [reflexivity|].
  rewrite Hx, IH. reflexivity.
Qed.

Lemma filter_of_filter {A : Type} (P Q : A -> bool) (l : list A) :
  (forall x, P x = true -> Q x = true) ->
  List.filter P (List.filter Q l) = List.filter P l.
Proof.
  intros HPQ. induction l as [|x l IH]; simpl; [reflexivity|].
  destruct (Q x) eqn:EQ; simpl.
  - rewrite IH. reflexivity.
  - destruct (P x) eqn:EP; [|exact IH].
    apply HPQ in EP. congruence.
Qed.

Lemma filter_perm {A : Type} (P : A -> bool) (l l' : list A) :
  Permutation l l' -> Permutation (List.filter P l) (List.filter P l').
Proof.
  induction 1 as [|x l l' _ IH|x z l|l l' l'' _ IH1 _ IH2]; simpl.
  - constructor.
  - destruct (P x); [constructor|]; exact IH.
  - destruct (P x), (P z); try reflexivity. constructor.
  - etransitivity; eassumption.
Qed.

Lemma filter_split_perm {A : Type} (P : A -> bool) (l : list A) :
  Permutation (List.filter P l ++ List.filter (fun x => negb (P x)) l) l.
Proof.
  induction l as [|x l IH]; simpl; [constructor|].
  destruct (P x); simpl.
  - constructor. exact IH.
  - symmetry. apply Permutation_cons_app. symmetry. exact IH.
Qed.

Section SortFacts.

Variable before : row -> row -> bool.

Lemma insert_by_perm (r : row) (l : list row) :
  Permutation (insert_by before r l) (r :: l).
Proof.
  induction l as [|h t IH]; simpl; [reflexivity|].
  destruct (before r h); [reflexivity|].
  rewrite IH. constructor.
Qed.

Lemma sort_by_perm (l : list row) : Permutation (sort_by before l) l.
Proof.
  induction l as [|r t IH]; simpl; [constructor|].
  rewrite insert_by_perm, IH. reflexivity.
Qed.

(** Sortedness, for rows on which [before] is total and transitive. *)
Variable ok : row -> Prop.
Hypothesis before_total :
  forall a b, ok a -> ok b -> before a b = false -> before b a = true.
Hypothesis before_trans :
  forall a b c, before a b = true -> before b c = true -> before a c = true.

Lemma insert_by_sorted (r : row) (l : list row) :
  ok r -> Forall ok l ->
  StronglySorted (fun a b => before a b = true) l ->
  StronglySorted (fun a b => before a b = true) (insert_by before r l).
Proof.
  intros Hr Hok Hs. induction Hs as [|h t Hs IH Hh]; simpl.
  - repeat constructor.
  - inversion Hok as [|? ? Hokh Hokt]; subst.
    destruct (before r h) eqn:E.
    + constructor; [constructor; assumption|].
      constructor; [assumption|].
      eapply List.Forall_impl; [|exact Hh].
      intros x Hx. eapply before_trans; eassumption.
    + constructor; [apply IH; assumption|].
      eapply Permutation_Forall; [symmetry; apply insert_by_perm|].
      constructor; [|assumption].
      apply before_total; assumption.
Qed.

Lemma sort_by_sorted (l : list row) :
  Forall ok l -> StronglySorted (fun a b => before a b = true) (sort_by before l).
Proof.
  induction 1 as [|r t Hr Ht IH]; simpl; [constructor|].
  apply insert_by_sorted; [assumption| |assumption].
  eapply Permutation_Forall; [symmetry; apply sort_by_perm|assumption].
Qed.

(** Stability: rows that tie keep their order of arrival. *)
Lemma filter_insert_by (P : row -> bool) (r : row) (l : list row) :
  (P r = true -> forall h, In h l -> P h = true -> before r h = true) ->
  List.filter P (insert_by before r l) = List.filter P (r :: l).
Proof.
  induction l as [|h t IH]; intros Htie; [reflexivity|].
  simpl. destruct (before r h) eqn:E; [reflexivity|].
  simpl. rewrite IH by (intros Hr x Hx; apply Htie; [assumption|right; assumption]).
  simpl. destruct (P r) eqn:Er; [|reflexivity].
  destruct (P h) eqn:Eh; [|reflexivity].
  rewrite (Htie eq_refl h (or_introl eq_refl) Eh) in E. discriminate.
Qed.

Lemma filter_sort_by (P : row -> bool) (l : list row) :
  (forall a b, P a = true -> P b = true -> before a b = true) ->
  List.filter P (sort_by before l) = List.filter P l.
Proof.
  intros Htie. induction l as [|r t IH]; [reflexivity|].
  simpl sort_by. rewrite filter_insert_by by (intros; apply Htie; assumption).
  simpl. rewrite IH. reflexivity.
Qed.

End SortFacts.

Lemma sorted_weaken {A : Type} (R R' : A -> A -> Prop) (l : list A) :
  (forall a b, R a b -> R' a b) -> StronglySorted R l -> StronglySorted R' l.
Proof.
  intros HR. induction 1 as [|a l _ IH Ha]; constructor; [assumption|].
  eapply List.Forall_impl; [|exact Ha]. intros b; apply HR.
Qed.

Lemma sorted_app {A : Type} (R : A -> A -> Prop) (l1 l2 : list A) :
  StronglySorted R l1 -> StronglySorted R l2 ->
  Forall (fun a => Forall (R a) l2) l1 ->
  StronglySorted R (l1 ++ l2).
Proof.
  intros H1 H2 H12. induction H1 as [|a l _ IH Ha]; simpl; [assumption|].
  inversion H12 as [|? ? Hal2 Hl]; subst.
  constructor; [apply IH; assumption|].
  apply Forall_app. split; assumption.
Qed.

Lemma sorted_firstn {A : Type} (R : A -> A -> Prop) (n : nat) (l : list A) :
  StronglySorted R l -> StronglySorted R (firstn n l).
Proof.
  intros Hs. revert n. induction Hs as [|a l _ IH Ha]; intros [|n]; simpl;
    try constructor; [apply IH|].
  apply Forall_take. exact Ha.
Qed.

Lemma sorted_all_related {A : Type} (R : A -> A -> Prop) (l : list A) :
  (forall a b, In b l -> R a b) -> StronglySorted R l.
Proof.
  induction l as [|x l IH]; intros HR; constructor.
  - apply IH. intros a b Hb. apply HR. right. exact Hb.
  - apply List.Forall_forall. intros b Hb. apply HR. right. exact Hb.
Qed.

Lemma in_symbols_existsb (s : string) (l : list string) :
  existsb (String.eqb s) l = true <-> In s l.
Proof.
  rewrite existsb_exists. split.
  - intros (x & Hx & E). apply String.eqb_eq in E. subst. exact Hx.
  - intros Hs. exists s. split; [exact Hs|apply String.eqb_refl].
Qed.

(** A selection that heads a rearrangement of the frame, and the rows it
    left out, make up the frame again. *)
Lemma complement_of_prefix (k : nat) (L c : frame) :
  Permutation L c -> List.NoDup (map symbol c) ->
  Permutation (firstn k L ++ complement (firstn k L) c) c.
Proof.
  intros HL Hnd.
  assert (Permutation (complement (firstn k L) c) (skipn k L)) as Hrest.
  { assert (forall f, Permutation (List.filter f c)
              (List.filter f (firstn k L) ++ List.filter f (skipn k L))) as Hsplit.
    { intros f. rewrite <- List.filter_app, firstn_skipn.
      apply filter_perm. symmetry. exact HL. }
    unfold complement.
    rewrite Hsplit, filter_none, filter_all; [reflexivity| |].
    - apply List.Forall_forall. intros r Hr.
      apply negb_true_iff, not_true_is_false. intros Hin.
      apply in_symbols_existsb in Hin.
      assert (List.NoDup (map symbol (firstn k L) ++ map symbol (skipn k L))) as Hnd'.
      { rewrite <- map_app, firstn_skipn.
        eapply Permutation_NoDup; [|exact Hnd].
        apply Permutation_map. symmetry. exact HL. }
      apply NoDup_ListNoDup, NoDup_app in Hnd' as (_ & Hdisj & _).
      apply (Hdisj (symbol r)); apply list_elem_of_In;
        [exact Hin|apply in_map; exact Hr].
    - apply List.Forall_forall. intros r Hr.
      apply negb_false_iff, in_symbols_existsb, in_map. exact Hr. }
  rewrite Hrest, firstn_skipn. exact HL.
Qed.

Section RankingFacts.

Variable col : row -> num.
Variable before : row -> row -> bool.
Variable order : row -> row -> Prop.

Hypothesis before_total :
  forall a b, notna (col a) = true -> notna (col b) = true ->
              before a b = false -> before b a = true.
Hypothesis before_trans :
  forall a b c, before a b = true -> before b c = true -> before a c = true.
Hypothesis before_tied :
  forall v a b, is_nan v = false ->
                tied col v a = true -> tied col v b = true -> before a b = true.
Hypothesis order_before : forall a b, before a b = true -> order a b.
Hypothesis order_nan : forall a b, is_nan (col b) = true -> order a b.

Lemma ranking_perm (df : frame) : Permutation (ranking col before df) df.
Proof.
  unfold ranking. rewrite sort_by_perm.
  rewrite (List.filter_ext (fun r => is_nan (col r))
             (fun r => negb (notna (col r)))).
  - apply filter_split_perm.
  - intros r. unfold notna. rewrite negb_involutive. reflexivity.
Qed.

Lemma ranking_sorted (df : frame) : StronglySorted order (ranking col before df).
Proof.
  unfold ranking. apply sorted_app.
  - apply sorted_weaken with (R := fun a b => before a b = true);
      [exact order_before|].
    apply sort_by_sorted with (ok := fun r => notna (col r) = true);
      [exact before_total|exact before_trans|].
    apply List.Forall_forall. intros r Hr. apply filter_In in Hr. tauto.
  - apply sorted_all_related. intros a b Hb.
    apply order_nan. apply filter_In in Hb. tauto.
  - apply List.Forall_forall. intros a _. apply List.Forall_forall. intros b Hb.
    apply order_nan. apply filter_In in Hb. tauto.
Qed.

Lemma ranking_tied (v : num) (df : frame) :
  List.filter (tied col v) (ranking col before df) = List.filter (tied col v) df.
Proof.
  unfold ranking. rewrite List.filter_app.
  destruct (is_nan v) eqn:Ev.
  - (* the rows without a value *)
    rewrite filter_none, filter_of_filter; [reflexivity| |].
    + intros r. unfold tied. rewrite Ev. tauto.
    + eapply Permutation_Forall; [symmetry; apply sort_by_perm|].
      apply List.Forall_forall. intros r Hr. apply filter_In in Hr as [_ Hr].
      unfold tied. rewrite Ev. unfold notna in Hr.
      apply negb_true_iff. exact Hr.
  - (* the rows with the value [v] *)
    assert (forall r, tied col v r = true -> notna (col r) = true) as Hval.
    { intros r. unfold tied, num_eqb. rewrite Ev. intros Hr.
      apply andb_true_iff in Hr as [Hr _]. apply num_leb_notna in Hr. tauto. }
    rewrite filter_sort_by by (intros a b; apply before_tied; exact Ev).
    rewrite filter_of_filter by exact Hval.
    rewrite (filter_none (tied col v) (List.filter (fun r => is_nan (col r)) df)),
      app_nil_r; [reflexivity|].
    apply List.Forall_forall. intros r Hr. apply filter_In in Hr as [_ Hr].
    apply not_true_is_false. intros Ht. apply Hval in Ht.
    unfold notna in Ht. rewrite Hr in Ht. discriminate.
Qed.

(** The first [k] rows of a ranking. *)
Lemma head_of_ranking (k : nat) (c : frame) :
  let top := firstn k (ranking col before c) in
  length top = Nat.min k (length c) /\
  StronglySorted order top /\
  (forall v, exists rest,
      List.filter (tied col v) c = List.filter (tied col v) top ++ rest) /\
  (List.NoDup (map symbol c) -> Permutation (top ++ complement top c) c).
Proof.
  intros top. split; [|split; [|split]].
  - unfold top. rewrite length_firstn, (Permutation_length (ranking_perm c)).
    reflexivity.
  - apply sorted_firstn, ranking_sorted.
  - intros v. exists (List.filter (tied col v) (skipn k (ranking col before c))).
    unfold top. rewrite <- List.filter_app, firstn_skipn. symmetry. apply ranking_tied.
  - apply complement_of_prefix, ranking_perm.
Qed.

End RankingFacts.

(** Rows that tie are interchangeable under both orders. *)
Lemma tied_leb (col : row -> num) (v : num) (a b : row) :
  is_nan v = false -> tied col v a = true -> tied col v b = true ->
  num_leb (col a) (col b) = true.
Proof.
  unfold tied, num_eqb. intros ->.
  intros Ha Hb.
  apply andb_true_iff in Ha as [Ha _]. apply andb_true_iff in Hb as [_ Hb].
  eapply num_leb_trans; eassumption.
Qed.

(** C5 (as amended).  [nlargest] ([nsmallest]) returns [min k |c|] rows,
    ordered by the column from the largest (smallest) value on, rows
    without a value last; rows with equal values keep their order of
    arrival in the frame (not the lexical order of their symbols); and, in
    a frame with one row per symbol, the selection and the rows it left
    out are a permutation of the frame. *)
Theorem nlargest_nsmallest_ranking (col : row -> num) (c : frame) (k : nat) :
  let top := nlargest col k c in
  let bottom := nsmallest col k c in
  (length top = Nat.min k (length c) /\
   StronglySorted (desc_order col) top /\
   (forall v, exists rest,
       List.filter (tied col v) c = List.filter (tied col v) top ++ rest) /\
   (List.NoDup (map symbol c) -> Permutation (top ++ complement top c) c)) /\
  (length bottom = Nat.min k (length c) /\
   StronglySorted (asc_order col) bottom /\
   (forall v, exists rest,
       List.filter (tied col v) c = List.filter (tied col v) bottom ++ rest) /\
   (List.NoDup (map symbol c) -> Permutation (bottom ++ complement bottom c) c)).
Proof.
  split.
  - apply head_of_ranking; unfold before_desc, desc_order.
    + intros a b Ha Hb. apply num_leb_total; assumption.
    + intros a b x Hab Hbx. eapply num_leb_trans; eassumption.
    + intros v a b Hv Ha Hb. eapply tied_leb; eassumption.
    + intros a b Hab. right. exact Hab.
    + intros a b Hb. left. exact Hb.
  - apply head_of_ranking; unfold before_asc, asc_order.
    + intros a b Ha Hb. apply num_leb_total; assumption.
    + intros a b x Hab Hbx. eapply num_leb_trans; eassumption.
    + intros v a b Hv Ha Hb. eapply tied_leb; eassumption.
    + intros a b Hab. right. exact Hab.
    + intros a b Hb. left. exact Hb.
Qed.

Lemma nlargest_nsmallest_ranking_witness :
  length (top_performers tied_frame) = 3%nat /\
  Permutation
    (top_performers tied_frame ++ complement (top_performers tied_frame) tied_frame)
    tied_frame.
Proof.
  destruct (nlargest_nsmallest_ranking change tied_frame 10)
    as [(Hlen & _ & _ & Hperm) _].
  split; [exact Hlen|].
  apply Hperm. apply NoDup_ListNoDup. vm_compute.
  repeat (constructor; [rewrite ?list_elem_of_In; simpl; intuition discriminate|]).
  constructor.
Defined.

(** C5, the claim as written, fails: MSFT and GOOGL have the same change
    and MSFT arrives first; among the ten largest of twelve rows,
    [nlargest] ranks MSFT before GOOGL, against the lexical order of the
    two symbols. *)
Lemma top_performers_ties_by_arrival :
  top_performers dozen_frame
  = [quote "V" 9; quote "JNJ" 8; quote "JPM" 7; quote "NVDA" 6;
     quote "AAPL" 5; quote "TSLA" 4; quote "META" 3; quote "AMZN" 2;
     quote "MSFT" 1; quote "GOOGL" 1] /\
  num_eqb (change (quote "MSFT" 1)) (change (quote "GOOGL" 1)) = true /\
  String.ltb "GOOGL" "MSFT" = true /\
  ~ StronglySorted spec_top_order (top_performers dozen_frame).
Proof.
  assert (top_performers dozen_frame
          = [quote "V" 9; quote "JNJ" 8; quote "JPM" 7; quote "NVDA" 6;
             quote "AAPL" 5; quote "TSLA" 4; quote "META" 3; quote "AMZN" 2;
             quote "MSFT" 1; quote "GOOGL" 1]) as E
    by (vm_compute; reflexivity).
  split; [exact E|].
  split; [vm_compute; reflexivity|].
  split; [vm_compute; reflexivity|].
  intros Hs. rewrite E in Hs.
  do 8 (apply StronglySorted_inv in Hs as [Hs _]).
  apply StronglySorted_inv in Hs as [_ Hs].
  apply Forall_inv in Hs. destruct Hs as [_ Hs].
  specialize (Hs eq_refl). vm_compute in Hs. discriminate.
Qed.

(** ** Aggregates *)

Lemma series_sum_skipna (s : list num) :
  series_sum s = fold_right num_add (num_of_Z 0) (List.filter notna s).
Proof.
  induction s as [|x s IH]; [reflexivity|].
  unfold series_sum in *. simpl. rewrite IH.
  destruct x; simpl; try reflexivity.
  apply num_add_0_l.
Qed.

Lemma filter_map_notna (f : row -> num) (df : frame) :
  List.filter notna (map f df)
  = map f (List.filter (fun r => notna (f r)) df).
Proof.
  induction df as [|r df IH]; [reflexivity|].
  simpl. destruct (notna (f r)); simpl; rewrite IH; reflexivity.
Qed.

(** C9.  The mean P/E is the sum of the P/E ratios of the rows that have
    one, divided by the number of those rows; when no row has one it is
    NaN, and the card then shows "nan", which is not what a mean of zero
    shows. *)
Theorem avg_pe_over_rows_with_pe (df : frame) :
  let rows := List.filter (fun r => notna (pe_value r)) df in
  (rows <> [] ->
   avg_pe df
   = num_div (fold_right num_add (num_of_Z 0) (map pe_value rows))
             (num_of_Z (Z.of_nat (length rows)))) /\
  (rows = [] ->
   avg_pe df = NaN /\
   render_avg_pe df = "nan" /\
   render_avg_pe df <> format_2f (num_of_Z 0)).
Proof.
  intros rows.
  assert (series_count (map pe_value df) = length rows) as Hcount.
  { unfold series_count. rewrite filter_map_notna, length_map. reflexivity. }
  assert (rows = [] -> avg_pe df = NaN) as Hnone.
  { intros E. unfold avg_pe, series_mean. rewrite Hcount, E. reflexivity. }
  split.
  - intros Hne. unfold avg_pe, series_mean.
    rewrite Hcount, series_sum_skipna, filter_map_notna. fold rows.
    destruct rows; [congruence|reflexivity].
  - intros E. split; [auto|].
    unfold render_avg_pe. rewrite (Hnone E). split; [reflexivity|].
    vm_compute. discriminate.
Qed.

Lemma avg_pe_over_rows_with_pe_witness :
  avg_pe tied_frame = NaN /\ render_avg_pe tied_frame = "nan".
Proof.
  destruct (avg_pe_over_rows_with_pe tied_frame) as [_ Hnone].
  destruct (Hnone eq_refl) as (Hnan & Hshow & _).
  split; assumption.
Defined.

(** B, which has no P/E, does not weigh on the mean of A and C. *)
Lemma avg_pe_of_pe_frame : render_avg_pe pe_frame = "15.00".
Proof. vm_compute. reflexivity. Qed.

(** ** Per-symbol lookup *)

Lemma iloc_first {A : Type} (l : list A) :
  iloc l 0 = match l with [] => inl IndexError | x :: _ => inr x end.
Proof. destruct l; reflexivity. Qed.

Lemma select_symbol_empty (df : frame) (sym : string) :
  ~ In sym (map symbol df) -> select_symbol df sym = [].
Proof.
  intros Habs. apply filter_none, List.Forall_forall. intros r Hr.
  apply not_true_is_false. intros E. apply String.eqb_eq in E.
  apply Habs. rewrite <- E. apply in_map. exact Hr.
Qed.

Lemma select_symbol_first (df : frame) (sym : string) :
  In sym (map symbol df) ->
  exists r rest, select_symbol df sym = r :: rest /\ In r df /\ symbol r = sym.
Proof.
  intros Hin. apply in_map_iff in Hin as (r0 & Hs & Hr0).
  assert (In r0 (select_symbol df sym)) as Hsel.
  { apply filter_In. split; [exact Hr0|]. apply String.eqb_eq. exact Hs. }
  destruct (select_symbol df sym) as [|r rest] eqn:E; [destruct Hsel|].
  exists r, rest. split; [reflexivity|].
  assert (In r (select_symbol df sym)) as Hr by (rewrite E; left; reflexivity).
  apply filter_In in Hr as [Hr Hsym]. apply String.eqb_eq in Hsym. auto.
Qed.

(** C10.  The lookups assume the symbol is in the frame.  For a symbol
    that is not, [get_stock_metrics] and the prediction page's
    [stock_info] raise [IndexError]; for one that is, they return the
    values of its first row. *)
Theorem lookup_requires_presence (df : frame) (sym : string) :
  (~ In sym (map symbol df) ->
   get_stock_metrics df sym = inl IndexError /\
   stock_info df sym = inl IndexError) /\
  (In sym (map symbol df) ->
   exists r,
     In r df /\ symbol r = sym /\
     stock_info df sym = inr r /\
     get_stock_metrics df sym
     = inr {| m_price := price r; m_change := change r;
              m_volume := volume r; m_market_cap := market_cap r;
              m_pe_ratio := pe_ratio r;
              m_dividend_yield := dividend_yield r;
              m_sector := sector r |}).
Proof.
  unfold get_stock_metrics, stock_info. split.
  - intros Habs. rewrite (select_symbol_empty df sym Habs). split; reflexivity.
  - intros Hin.
    destruct (select_symbol_first df sym Hin) as (r & rest & E & Hr & Hs).
    exists r. rewrite E. repeat split; assumption || reflexivity.
Qed.

Lemma lookup_requires_presence_witness :
  get_stock_metrics tied_frame "B" = inl IndexError /\
  stock_info tied_frame "B" = inl IndexError.
Proof.
  destruct (lookup_requires_presence tied_frame "B") as [Habsent _].
  apply Habsent. simpl. intuition discriminate.
Defined.

(** ** Forecasting *)

Lemma slice_from_map {A B : Type} (f : A -> B) (l : list A) (start : Z) :
  slice_from (map f l) start = map f (slice_from l start).
Proof.
  unfold slice_from. rewrite length_map. apply skipn_map.
Qed.

(** The last [n] elements, for [n] positive and within the list. *)
Lemma slice_from_last {A : Type} (l : list A) (n : nat) :
  (0 < n <= length l)%nat ->
  slice_from l (- Z.of_nat n) = skipn (length l - n) l.
Proof.
  intros Hn. unfold slice_from.
  destruct (- Z.of_nat n <? 0)%Z eqn:E; [|apply Z.ltb_ge in E; lia].
  f_equal. lia.
Qed.

Lemma forecast_view_app {A : Type} (past future : list A) :
  (0 < length future)%nat ->
  forecast_view (past ++ future) (length future) = future.
Proof.
  intros Hpos. unfold forecast_view.
  rewrite slice_from_last by (rewrite length_app; lia).
  rewrite length_app.
  replace (length past + length future - length future)%nat
    with (length past) by lia.
  apply drop_app_length.
Qed.

(** With nothing to show the slice is the whole column: [s[-0:]] is
    [s[0:]]. *)
Lemma forecast_view_zero {A : Type} (column : list A) :
  forecast_view column 0 = column.
Proof.
  unfold forecast_view, slice_from. simpl.
  rewrite Z.min_l by lia. reflexivity.
Qed.

Lemma sorted_unique_increasing (l : list Z) :
  StronglySorted Z.lt l -> sorted_unique l = l.
Proof.
  induction 1 as [|d l _ IH Hd]; [reflexivity|].
  simpl. rewrite IH. destruct l as [|h t]; [reflexivity|].
  simpl. apply Forall_inv in Hd.
  rewrite (proj2 (Z.compare_lt_iff d h) Hd). reflexivity.
Qed.

Section ProphetFacts.

Variable params : Type.
Variable fit_params : history -> raises params.
Variable predict_point : params -> Z -> num * num * num.

Abbreviation fit' := (fit params fit_params).
Abbreviation predict' := (predict params predict_point).
Abbreviation train := (train_prophet_model params fit_params predict_point).

Lemma predict_dates (m : prophet params) (days : list Z) :
  map f_ds (predict' m days) = days.
Proof.
  unfold predict. rewrite map_map. rewrite <- (map_id days) at 2.
  apply map_ext. intros d. destruct (predict_point (fitted m) d) as [[? ?] ?].
  reflexivity.
Qed.

Lemma fit_inv (h : history) (m : prophet params) :
  fit' h = inr m ->
  (2 <= length (List.filter (fun o => notna (y o)) h))%nat /\
  fit_params (List.filter (fun o => notna (y o)) h) = inr (fitted m) /\
  history_dates m = sorted_unique (map ds h).
Proof.
  unfold fit, bind.
  destruct (length (List.filter (fun o => notna (y o)) h) <? 2)%nat eqn:E;
    [discriminate|].
  apply Nat.ltb_ge in E.
  destruct (fit_params _) as [e|p]; [discriminate|].
  intros Hm. injection Hm as <-. auto.
Qed.

Lemma train_inv (h : history) (periods : nat)
    (m : prophet params) (forecast : list forecast_row) :
  train h periods = inr (m, forecast) ->
  fit' h = inr m /\
  forecast = predict' m (history_dates m ++ future_days m periods).
Proof.
  unfold train_prophet_model, bind.
  destruct (fit' h) as [e|m']; [discriminate|].
  intros Hr. injection Hr as <- <-. split; reflexivity.
Qed.

Lemma predict_length (m : prophet params) (days : list Z) :
  length (predict' m days) = length days.
Proof. unfold predict. apply length_map. Qed.

Lemma future_days_length (m : prophet params) (periods : nat) :
  length (future_days m periods) = periods.
Proof. unfold future_days. rewrite length_map. apply length_seq. Qed.

(** The rows shown are those of the added days. *)
Lemma view_of_forecast (m : prophet params) (periods : nat) :
  (0 < periods)%nat ->
  forecast_view (predict' m (history_dates m ++ future_days m periods)) periods
  = predict' m (future_days m periods).
Proof.
  intros Hpos.
  assert (length (predict' m (future_days m periods)) = periods) as E
    by (rewrite predict_length; apply future_days_length).
  assert (predict' m (history_dates m ++ future_days m periods)
          = predict' m (history_dates m) ++ predict' m (future_days m periods))
    as -> by apply map_app.
  pose proof (forecast_view_app (predict' m (history_dates m))
                (predict' m (future_days m periods))) as Hv.
  rewrite E in Hv. apply Hv. exact Hpos.
Qed.

End ProphetFacts.

(** C6.  After a successful [train_prophet_model] with a positive number
    of periods, the forecast has one row for every recorded day of the
    history followed by one row for each of the [periods] days after the
    last one; the part that [plot_prediction] shows, [s[-periods:]] of
    each column, is exactly the rows of those [periods] days, so it has
    [periods] points. *)
Theorem forecast_view_is_horizon
    (params : Type) (fit_params : history -> raises params)
    (predict_point : params -> Z -> num * num * num)
    (h : history) (periods : nat)
    (m : prophet params) (forecast : list forecast_row) :
  train_prophet_model params fit_params predict_point h periods
  = inr (m, forecast) ->
  (0 < periods)%nat ->
  let shown := plot_prediction h forecast periods in
  map f_ds forecast = sorted_unique (map ds h) ++ future_days m periods /\
  length forecast = (length (sorted_unique (map ds h)) + periods)%nat /\
  forecast_view forecast periods
  = predict params predict_point m (future_days m periods) /\
  length (forecast_view forecast periods) = periods /\
  fst (trace_prediction shown) = future_days m periods /\
  length (snd (trace_prediction shown)) = periods /\
  length (snd (trace_upper shown)) = periods /\
  length (snd (trace_lower shown)) = periods.
Proof.
  intros Ht Hpos shown.
  apply train_inv in Ht as [Hfit ->].
  apply fit_inv in Hfit as (_ & _ & Hdates).
  pose proof (future_days_length params m periods) as Hlen.
  pose proof (view_of_forecast params predict_point m periods Hpos) as Hview.
  assert (forall (A : Type) (f : forecast_row -> A),
             forecast_view
               (map f (predict params predict_point m
                         (history_dates m ++ future_days m periods))) periods
             = map f (predict params predict_point m (future_days m periods)))
    as Hcol.
  { intros A f. unfold forecast_view in *. rewrite slice_from_map, Hview.
    reflexivity. }
  assert (length (predict params predict_point m (future_days m periods)) = periods)
    as Hplen by (rewrite predict_length; exact Hlen).
  repeat split.
  - rewrite predict_dates, Hdates. reflexivity.
  - rewrite predict_length, length_app, Hlen, Hdates. reflexivity.
  - exact Hview.
  - rewrite Hview. exact Hplen.
  - unfold shown, plot_prediction; simpl. rewrite Hcol. apply predict_dates.
  - unfold shown, plot_prediction; simpl. rewrite Hcol, length_map. exact Hplen.
  - unfold shown, plot_prediction; simpl. rewrite Hcol, length_map. exact Hplen.
  - unfold shown, plot_prediction; simpl. rewrite Hcol, length_map. exact Hplen.
Qed.

Lemma forecast_view_is_horizon_witness :
  exists m forecast,
    train_prophet_model num carry_fit carry_predict history10 30
    = inr (m, forecast) /\
    length forecast = 40%nat /\
    length (forecast_view forecast 30) = 30%nat.
Proof.
  destruct (train_prophet_model num carry_fit carry_predict history10 30)
    as [e|[m forecast]] eqn:E; [vm_compute in E; discriminate|].
  exists m, forecast. split; [reflexivity|].
  destruct (forecast_view_is_horizon num carry_fit carry_predict
              history10 30 m forecast E ltac:(lia))
    as (_ & Hlen & _ & Hview & _).
  split; [rewrite Hlen; vm_compute; reflexivity|exact Hview].
Defined.

(** A history of strictly increasing days is recorded as it is, so the
    forecast then has one row per observation and one per future day. *)
Lemma forecast_covers_history
    (params : Type) (fit_params : history -> raises params)
    (predict_point : params -> Z -> num * num * num)
    (h : history) (periods : nat)
    (m : prophet params) (forecast : list forecast_row) :
  train_prophet_model params fit_params predict_point h periods
  = inr (m, forecast) ->
  StronglySorted Z.lt (map ds h) ->
  map f_ds forecast = map ds h ++ future_days m periods /\
  length forecast = (length h + periods)%nat.
Proof.
  intros Ht Hinc.
  apply train_inv in Ht as [Hfit ->].
  apply fit_inv in Hfit as (_ & _ & Hdates).
  rewrite (sorted_unique_increasing _ Hinc) in Hdates.
  split.
  - rewrite predict_dates, Hdates. reflexivity.
  - unfold predict, future_days.
    rewrite length_map, length_app, Hdates, !length_map, length_seq.
    reflexivity.
Qed.

(** C3 (as amended).  [train_prophet_model] has no minimum number of
    observations of its own and never reports [InsufficientDataError]:
    the only length that matters is Prophet's, which refuses a frame with
    fewer than two valued rows with a [ValueError]; any longer history on
    which the fit succeeds gets a forecast, and a failure of the fit is
    passed on as it is. *)
Theorem train_has_no_history_threshold
    (params : Type) (fit_params : history -> raises params)
    (predict_point : params -> Z -> num * num * num)
    (h : history) (periods : nat) :
  let valued := List.filter (fun o => notna (y o)) h in
  let outcome := train_and_forecast params fit_params predict_point h periods in
  outcome <> inl InsufficientDataError /\
  ((length valued < 2)%nat -> outcome = inl (Raised ValueError)) /\
  ((2 <= length valued)%nat ->
   (forall e, fit_params valued = inl e -> outcome = inl (Raised e)) /\
   (forall p, fit_params valued = inr p ->
      exists m forecast,
        outcome = inr (m, forecast) /\ fitted m = p /\
        length forecast = (length (history_dates m) + periods)%nat)).
Proof.
  intros valued outcome. subst outcome.
  unfold train_and_forecast, train_prophet_model, fit, bind. fold valued.
  split; [|split].
  - destruct (length valued <? 2)%nat; [discriminate|].
    destruct (fit_params valued); discriminate.
  - intros Hshort. apply Nat.ltb_lt in Hshort. rewrite Hshort. reflexivity.
  - intros Hlong. apply Nat.ltb_ge in Hlong. rewrite Hlong. split.
    + intros e ->. reflexivity.
    + intros p ->. eexists. eexists. split; [reflexivity|].
      split; [reflexivity|].
      unfold predict, make_future_dataframe.
      rewrite length_map, length_app, length_map, length_seq. reflexivity.
Qed.

Lemma train_has_no_history_threshold_witness :
  exists m forecast,
    train_and_forecast num carry_fit carry_predict history10 30
    = inr (m, forecast) /\
    length forecast = (length (history_dates m) + 30)%nat.
Proof.
  destruct (train_has_no_history_threshold num carry_fit carry_predict history10 30)
    as (_ & _ & Hlong).
  destruct (Hlong ltac:(vm_compute; lia)) as [_ Hfit].
  destruct (Hfit _ eq_refl) as (m & forecast & Ho & _ & Hlen).
  exists m, forecast. split; assumption.
Defined.

(** C3, the claim as written, fails: a history of ten closes is below any
    threshold of about sixty, and training on it returns a forecast of
    forty rows instead of failing with [InsufficientDataError]. *)
Lemma short_history_gets_forecast :
  length history10 = 10%nat /\
  train_and_forecast num carry_fit carry_predict history10 30
  <> inl InsufficientDataError /\
  exists m forecast,
    train_and_forecast num carry_fit carry_predict history10 30
    = inr (m, forecast) /\
    length forecast = 40%nat.
Proof.
  split; [reflexivity|].
  split; [vm_compute; discriminate|].
  eexists. eexists. split; vm_compute; reflexivity.
Qed.

(** ** The cache *)

Section CacheFacts.

Context {K : Type} `{Countable K} {V : Type}.

Implicit Types (c : cache K V) (e : entry V).

Lemma get_or_compute_hit c e (now ttl : Z) (key : K) (compute_fn : Z -> V) :
  entries c !! key = Some e -> (now < created e + ttl)%Z ->
  get_or_compute now key ttl compute_fn c = (value e, c).
Proof.
  intros He Hlive. unfold get_or_compute, live. rewrite He.
  rewrite bool_decide_eq_true_2 by exact Hlive. reflexivity.
Qed.

Lemma get_or_compute_expired c e (now ttl : Z) (key : K) (compute_fn : Z -> V) :
  entries c !! key = Some e -> (created e + ttl <= now)%Z ->
  get_or_compute now key ttl compute_fn c = recompute now key compute_fn c.
Proof.
  intros He Hdead. unfold get_or_compute, live. rewrite He.
  rewrite bool_decide_eq_false_2 by lia. reflexivity.
Qed.

(** Whatever the call did, it leaves the entry of the value it returned. *)
Lemma get_or_compute_entry c c1 (v1 : V) (now ttl : Z) (key : K)
    (compute_fn : Z -> V) :
  get_or_compute now key ttl compute_fn c = (v1, c1) ->
  exists e, entries c1 !! key = Some e /\ value e = v1.
Proof.
  unfold get_or_compute, recompute.
  destruct (entries c !! key) as [e|] eqn:He.
  - destruct (live now ttl e).
    + intros Hr. injection Hr as <- <-. eauto.
    + intros Hr. injection Hr as <- <-. simpl. rewrite lookup_insert_eq. eauto.
  - intros Hr. injection Hr as <- <-. simpl. rewrite lookup_insert_eq. eauto.
Qed.

Lemma second_call_hits c c1 e (v1 : V) (now1 now2 ttl : Z) (key : K)
    (compute_fn : Z -> V) :
  get_or_compute now1 key ttl compute_fn c = (v1, c1) ->
  entries c1 !! key = Some e ->
  (now2 < created e + ttl)%Z ->
  get_or_compute now2 key ttl compute_fn c1 = (v1, c1).
Proof.
  intros Hfirst He Hlive.
  destruct (get_or_compute_entry _ _ _ _ _ _ _ Hfirst) as (e' & He' & Hv).
  rewrite He in He'. injection He' as <-.
  rewrite <- Hv. apply get_or_compute_hit; assumption.
Qed.

(** A call that found nothing stores an entry created at the time of the
    call. *)
Lemma miss_creates_now c c1 (v1 : V) (now ttl : Z) (key : K)
    (compute_fn : Z -> V) :
  entries c !! key = None ->
  get_or_compute now key ttl compute_fn c = (v1, c1) ->
  entries c1 !! key = Some {| value := compute_fn now; created := now |} /\
  v1 = compute_fn now /\
  runs key c1 = S (runs key c).
Proof.
  intros Hnone. unfold get_or_compute, recompute, runs. rewrite Hnone.
  intros Hr. injection Hr as <- <-. simpl.
  rewrite lookup_insert_eq, bool_decide_eq_true_2 by reflexivity.
  auto.
Qed.

(** After [clear] every key is computed again. *)
Lemma clear_forces_recompute c (now ttl : Z) (key : K) (compute_fn : Z -> V) :
  get_or_compute now key ttl compute_fn (clear c)
  = recompute now key compute_fn (clear c).
Proof.
  unfold get_or_compute, clear. simpl. rewrite lookup_empty. reflexivity.
Qed.

End CacheFacts.

(** C7.  When a call of [get_or_compute] has returned a value, a second
    call for the same key before the entry is [ttl] seconds old returns
    the same value and leaves the cache as it is: the compute function
    is not run, and its runs are counted as before.  The snapshot loader
    is cached with a window of 30 seconds and the history loader with one
    of 3600 seconds. *)
Theorem second_call_within_ttl_is_cached
    {K : Type} `{Countable K} {V : Type}
    (c c1 : cache K V) (e : entry V) (v1 : V)
    (now1 now2 ttl : Z) (key : K) (compute_fn : Z -> V) :
  get_or_compute now1 key ttl compute_fn c = (v1, c1) ->
  entries c1 !! key = Some e ->
  (now2 < created e + ttl)%Z ->
  get_or_compute now2 key ttl compute_fn c1 = (v1, c1) /\
  runs key (snd (get_or_compute now2 key ttl compute_fn c1)) = runs key c1.
Proof.
  intros Hfirst He Hlive.
  rewrite (second_call_hits _ _ _ _ _ _ _ _ _ Hfirst He Hlive).
  split; reflexivity.
Qed.

(** The snapshot path: within 30 seconds of the entry's creation. *)
Lemma cached_load_stock_data_within_30
    (c c1 : cache fn_key (option frame)) (e : entry (option frame))
    (df : option frame) (now1 now2 : Z) (load : Z -> option frame) :
  cached_load_stock_data now1 load c = (df, c1) ->
  entries c1 !! ("load_stock_data", None) = Some e ->
  (now2 < created e + 30)%Z ->
  cached_load_stock_data now2 load c1 = (df, c1).
Proof. apply second_call_hits. Qed.

(** The history path: within 3600 seconds of the entry's creation. *)
Lemma cached_load_historical_data_within_3600
    (c c1 : cache fn_key (option history)) (e : entry (option history))
    (h : option history) (now1 now2 : Z)
    (load : Z -> string -> Z -> option history) (sym : string) (years : Z) :
  cached_load_historical_data now1 load sym years c = (h, c1) ->
  entries c1 !! ("load_historical_data", Some (sym, years)) = Some e ->
  (now2 < created e + 3600)%Z ->
  cached_load_historical_data now2 load sym years c1 = (h, c1).
Proof. apply second_call_hits. Qed.

Lemma second_call_within_ttl_is_cached_witness :
  let c1 := snd (cached_load_stock_data 100 upstream_at empty_cache) in
  cached_load_stock_data 100 upstream_at empty_cache = (Some tied_frame, c1) /\
  cached_load_stock_data 129 upstream_at c1 = (Some tied_frame, c1) /\
  upstream_at 129 = None /\
  runs ("load_stock_data", None) c1 = 1%nat.
Proof.
  intros c1.
  assert (cached_load_stock_data 100 upstream_at empty_cache
          = (Some tied_frame, c1)) as Hfirst by (vm_compute; reflexivity).
  split; [exact Hfirst|].
  destruct (second_call_within_ttl_is_cached
              empty_cache c1
              {| value := Some tied_frame; created := 100 |}
              (Some tied_frame) 100 129 snapshot_ttl
              ("load_stock_data", None) upstream_at Hfirst)
    as [Hsecond _].
  - vm_compute. reflexivity.
  - vm_compute. reflexivity.
  - split; [exact Hsecond|]. split; vm_compute; reflexivity.
Defined.

(** ** What the forecast rows are *)

(** Every row of a forecast is Prophet's prediction for its day: the
    point estimate and the two bounds are passed on unchanged. *)
Lemma forecast_rows_are_predictions
    (params : Type) (fit_params : history -> raises params)
    (predict_point : params -> Z -> num * num * num)
    (h : history) (periods : nat)
    (m : prophet params) (forecast : list forecast_row) (r : forecast_row) :
  train_prophet_model params fit_params predict_point h periods
  = inr (m, forecast) ->
  In r forecast ->
  predict_point (fitted m) (f_ds r) = (yhat r, yhat_lower r, yhat_upper r).
Proof.
  intros Ht Hr. apply train_inv in Ht as [_ ->].
  unfold predict in Hr. apply in_map_iff in Hr as (d & <- & _).
  destruct (predict_point (fitted m) d) as [[point lower] upper] eqn:E.
  simpl. exact E.
Qed.

(** The rows shown are rows of the forecast. *)
Lemma forecast_view_incl {A : Type} (column : list A) (n : nat) (x : A) :
  In x (forecast_view column n) -> In x column.
Proof.
  unfold forecast_view, slice_from. intros Hx.
  rewrite <- (firstn_skipn
                (Z.to_nat
                   (if (- Z.of_nat n <? 0)%Z
                    then Z.max (Z.of_nat (length column) + - Z.of_nat n) 0
                    else Z.min (- Z.of_nat n) (Z.of_nat (length column))))
                column).
  apply in_or_app. right. exact Hx.
Qed.

(** A symbol that the loader dropped cannot be looked up afterwards. *)
Lemma lookup_of_dropped_symbol :
  exists df,
    fst (load_stock_data abc_symbols abc_download abc_info) = Some df /\
    get_stock_metrics df "B" = inl IndexError.
Proof.
  eexists. split; vm_compute; reflexivity.
Qed.

(** * Further properties of the pages *)

(** ** Selections and what they leave out *)

Lemma num_leb_refl (x : num) : notna x = true -> num_leb x x = true.
Proof.
  destruct x as [q| | |]; unfold notna; simpl; try congruence.
  intros _. apply Qle_bool_iff, Qle_refl.
Qed.

Lemma sorted_app_inv {A : Type} (R : A -> A -> Prop) (l1 l2 : list A) (a b : A) :
  StronglySorted R (l1 ++ l2) -> In a l1 -> In b l2 -> R a b.
Proof.
  induction l1 as [|x l1 IH]; simpl; intros Hs Ha Hb; [destruct Ha|].
  apply StronglySorted_inv in Hs as [Hs Hx].
  destruct Ha as [<-|Ha]; [|apply IH; assumption].
  rewrite List.Forall_forall in Hx. apply Hx, in_or_app. right. exact Hb.
Qed.

Lemma ranking_desc_sorted (col : row -> num) (df : frame) :
  StronglySorted (desc_order col) (ranking col (before_desc col) df).
Proof.
  apply ranking_sorted; unfold before_desc, desc_order.
  - intros a b Ha Hb. apply num_leb_total; assumption.
  - intros a b x Hab Hbx. eapply num_leb_trans; eassumption.
  - intros a b Hab. right. exact Hab.
  - intros a b Hb. left. exact Hb.
Qed.

Lemma ranking_asc_sorted (col : row -> num) (df : frame) :
  StronglySorted (asc_order col) (ranking col (before_asc col) df).
Proof.
  apply ranking_sorted; unfold before_asc, asc_order.
  - intros a b Ha Hb. apply num_leb_total; assumption.
  - intros a b x Hab Hbx. eapply num_leb_trans; eassumption.
  - intros a b Hab. right. exact Hab.
  - intros a b Hb. left. exact Hb.
Qed.

Lemma ranking_desc_tied (col : row -> num) (v : num) (df : frame) :
  List.filter (tied col v) (ranking col (before_desc col) df)
  = List.filter (tied col v) df.
Proof.
  apply ranking_tied. unfold before_desc.
  intros w a b Hw Ha Hb. eapply tied_leb; eassumption.
Qed.

Lemma ranking_asc_tied (col : row -> num) (v : num) (df : frame) :
  List.filter (tied col v) (ranking col (before_asc col) df)
  = List.filter (tied col v) df.
Proof.
  apply ranking_tied. unfold before_asc.
  intros w a b Hw Ha Hb. eapply tied_leb; eassumption.
Qed.

(** The rows left out are the tail of the ranking. *)
Lemma complement_is_tail (k : nat) (L c : frame) :
  Permutation L c -> List.NoDup (map symbol c) ->
  Permutation (complement (firstn k L) c) (skipn k L).
Proof.
  intros HL Hnd.
  apply (Permutation_app_inv_l (firstn k L)).
  rewrite (complement_of_prefix k L c HL Hnd), firstn_skipn.
  symmetry. exact HL.
Qed.

Lemma head_outranks_tail (R : row -> row -> Prop) (k : nat) (L c : frame)
    (a b : row) :
  StronglySorted R L -> Permutation L c -> List.NoDup (map symbol c) ->
  In a (firstn k L) -> In b (complement (firstn k L) c) -> R a b.
Proof.
  intros Hs HL Hnd Ha Hb.
  apply (sorted_app_inv R (firstn k L) (skipn k L)); [|exact Ha|].
  - rewrite firstn_skipn. exact Hs.
  - eapply Permutation_in; [apply complement_is_tail; eassumption|exact Hb].
Qed.

(** X1.  No row that a selection leaves out outranks a row it holds:
    against every row of [nlargest] a row left out has no larger value
    (or no value at all), and against every row of [nsmallest] no smaller
    one. *)
Theorem selected_rows_outrank_the_rest
    (col : row -> num) (df : frame) (n : nat) (a b : row) :
  List.NoDup (map symbol df) ->
  (In a (nlargest col n df) -> In b (complement (nlargest col n df) df) ->
   desc_order col a b) /\
  (In a (nsmallest col n df) -> In b (complement (nsmallest col n df) df) ->
   asc_order col a b).
Proof.
  intros Hnd. split; intros Ha Hb.
  - eapply head_outranks_tail; try eassumption.
    + apply ranking_desc_sorted.
    + apply ranking_perm.
  - eapply head_outranks_tail; try eassumption.
    + apply ranking_asc_sorted.
    + apply ranking_perm.
Qed.

Lemma selected_rows_outrank_the_rest_witness :
  desc_order change (quote "V" 9) (quote "PG" (-1)).
Proof.
  refine (proj1 (selected_rows_outrank_the_rest change dozen_frame 10
                   (quote "V" 9) (quote "PG" (-1)) _) _ _).
  - apply NoDup_ListNoDup, (bool_decide_unpack _). vm_compute. exact I.
  - vm_compute. left. reflexivity.
  - vm_compute. left. reflexivity.
Defined.

Lemma ranking_head_extreme (col : row -> num) (before : row -> row -> bool)
    (R : row -> row -> Prop) (n : nat) (df rest : frame) (a r : row) :
  StronglySorted R (ranking col before df) ->
  firstn n (ranking col before df) = a :: rest ->
  In r df -> r = a \/ R a r.
Proof.
  intros Hs Hhead Hr.
  apply (Permutation_in r (Permutation_sym (ranking_perm col before df))) in Hr.
  destruct (ranking col before df) as [|x L]; [destruct Hr|].
  destruct n as [|n]; [discriminate|].
  simpl in Hhead. injection Hhead as -> _.
  destruct Hr as [<-|Hr]; [left; reflexivity|right].
  apply StronglySorted_inv in Hs as [_ Hx].
  rewrite List.Forall_forall in Hx. apply Hx, Hr.
Qed.

Lemma nlargest_head_max (col : row -> num) (n : nat) (df rest : frame)
    (a r : row) :
  nlargest col n df = a :: rest -> In r df -> notna (col r) = true ->
  num_leb (col r) (col a) = true.
Proof.
  intros Hhead Hr Hval.
  destruct (ranking_head_extreme col (before_desc col) (desc_order col)
              n df rest a r (ranking_desc_sorted col df) Hhead Hr)
    as [->|[Hnan|Hle]].
  - apply num_leb_refl, Hval.
  - unfold notna in Hval. rewrite Hnan in Hval. discriminate.
  - exact Hle.
Qed.

Lemma nsmallest_head_min (col : row -> num) (n : nat) (df rest : frame)
    (a r : row) :
  nsmallest col n df = a :: rest -> In r df -> notna (col r) = true ->
  notna (col a) = true /\ num_leb (col a) (col r) = true.
Proof.
  intros Hhead Hr Hval.
  destruct (ranking_head_extreme col (before_asc col) (asc_order col)
              n df rest a r (ranking_asc_sorted col df) Hhead Hr)
    as [->|[Hnan|Hle]].
  - split; [exact Hval|apply num_leb_refl, Hval].
  - unfold notna in Hval. rewrite Hnan in Hval. discriminate.
  - split; [|exact Hle]. apply num_leb_notna in Hle. tauto.
Qed.

(** X2.  The first card of each list is an extreme of the whole frame:
    no row with a change has a larger change than the first top performer,
    none a smaller one than the first bottom performer. *)
Theorem first_performer_is_extreme
    (df : frame) (top bottom : row) (tops bottoms : frame) (r : row) :
  top_performers df = top :: tops ->
  bottom_performers df = bottom :: bottoms ->
  In r df -> notna (change r) = true ->
  num_leb (change r) (change top) = true /\
  num_leb (change bottom) (change r) = true.
Proof.
  intros Htop Hbottom Hr Hval. split.
  - eapply nlargest_head_max; eassumption.
  - eapply nsmallest_head_min; eassumption.
Qed.

Lemma first_performer_is_extreme_witness :
  num_leb (change (quote "MSFT" 1)) (change (quote "V" 9)) = true /\
  num_leb (change (quote "UNH" (-2))) (change (quote "MSFT" 1)) = true.
Proof.
  eapply (first_performer_is_extreme dozen_frame).
  - vm_compute. reflexivity.
  - vm_compute. reflexivity.
  - vm_compute. right. left. reflexivity.
  - reflexivity.
Defined.

Lemma ranking_of_tied_frame (col : row -> num) (before : row -> row -> bool)
    (v : num) (df : frame) :
  List.filter (tied col v) (ranking col before df) = List.filter (tied col v) df ->
  (forall r, In r df -> tied col v r = true) ->
  ranking col before df = df.
Proof.
  intros Hf Hall.
  rewrite (filter_all (tied col v) df) in Hf
    by (apply List.Forall_forall; exact Hall).
  rewrite filter_all in Hf; [exact Hf|].
  apply List.Forall_forall. intros r Hr. apply Hall.
  eapply Permutation_in; [apply ranking_perm|exact Hr].
Qed.

(** X3.  When all rows have the same value in the column (or none has
    one), a selection smaller than the frame is the same for [nlargest]
    and [nsmallest]: the first [n] rows of the frame, in their order of
    arrival.  On such a day the top and the bottom performers are the
    same stocks. *)
Theorem all_tied_top_equals_bottom
    (col : row -> num) (v : num) (df : frame) (n : nat) :
  (n < length df)%nat ->
  (forall r, In r df -> tied col v r = true) ->
  nlargest col n df = firstn n df /\ nsmallest col n df = firstn n df.
Proof.
  intros _ Hall. unfold nlargest, nsmallest.
  rewrite (ranking_of_tied_frame col (before_desc col) v df
             (ranking_desc_tied col v df) Hall).
  rewrite (ranking_of_tied_frame col (before_asc col) v df
             (ranking_asc_tied col v df) Hall).
  split; reflexivity.
Qed.

Lemma all_tied_top_equals_bottom_witness :
  nlargest change 1 [quote "MSFT" 1; quote "GOOGL" 1] = [quote "MSFT" 1] /\
  nsmallest change 1 [quote "MSFT" 1; quote "GOOGL" 1] = [quote "MSFT" 1].
Proof.
  apply (all_tied_top_equals_bottom change (num_of_Z 1)).
  - simpl. lia.
  - intros r [<-|[<-|[]]]; reflexivity.
Defined.

(** X4.  The chart frame has twice [min 10 |df|] rows, and for a frame of
    at most ten rows it holds every row twice: once labelled ['Top 10']
    and once labelled ['Bottom 10']. *)
Theorem small_frame_is_charted_twice (df : frame) :
  length (create_visualizations df) = (2 * Nat.min 10 (length df))%nat /\
  ((length df <= 10)%nat ->
   exists tops bottoms,
     create_visualizations df
     = map (fun r => (r, "Top 10")) tops
       ++ map (fun r => (r, "Bottom 10")) bottoms /\
     Permutation tops df /\ Permutation bottoms df).
Proof.
  unfold create_visualizations, top_performers, bottom_performers,
    nlargest, nsmallest.
  split.
  - rewrite length_app, !length_map, !length_firstn.
    rewrite (Permutation_length (ranking_perm change (before_desc change) df)).
    rewrite (Permutation_length (ranking_perm change (before_asc change) df)).
    lia.
  - intros Hsmall.
    exists (ranking change (before_desc change) df),
           (ranking change (before_asc change) df).
    split; [|split; apply ranking_perm].
    rewrite !firstn_all2; [reflexivity| |].
    + rewrite (Permutation_length (ranking_perm _ _ df)). exact Hsmall.
    + rewrite (Permutation_length (ranking_perm _ _ df)). exact Hsmall.
Qed.

Lemma small_frame_is_charted_twice_witness :
  exists tops bottoms,
    create_visualizations tied_frame
    = map (fun r => (r, "Top 10")) tops
      ++ map (fun r => (r, "Bottom 10")) bottoms /\
    Permutation tops tied_frame /\ Permutation bottoms tied_frame.
Proof.
  apply (proj2 (small_frame_is_charted_twice tied_frame)).
  vm_compute. lia.
Defined.

Lemma in_firstn_split {A : Type} (n : nat) (l : list A) (a : A) :
  In a (firstn n l) ->
  exists before after, l = before ++ a :: after /\ (length before < n)%nat.
Proof.
  intros Ha. destruct (in_split _ _ Ha) as (p & s & E).
  exists p, (s ++ skipn n l). split.
  - rewrite <- (firstn_skipn n l) at 1. rewrite E, <- app_assoc. reflexivity.
  - assert (length (firstn n l) <= n)%nat as Hle by apply firstn_le_length.
    rewrite E, length_app in Hle. simpl in Hle. lia.
Qed.

(** X5.  With at least [2 n] rows whose values in the column are all
    present and pairwise different, no row is both among the [n] largest
    and among the [n] smallest. *)
Theorem top_and_bottom_are_disjoint
    (col : row -> num) (df : frame) (n : nat) (a : row) :
  List.NoDup df ->
  (forall r, In r df -> notna (col r) = true) ->
  (forall r1 r2, In r1 df -> In r2 df ->
                 num_eqb (col r1) (col r2) = true -> r1 = r2) ->
  (2 * n <= length df)%nat ->
  In a (nlargest col n df) -> ~ In a (nsmallest col n df).
Proof.
  intros Hnd Hval Hdistinct Hsize Htop Hbottom.
  unfold nlargest in Htop. unfold nsmallest in Hbottom.
  pose proof (ranking_perm col (before_desc col) df) as Pd.
  pose proof (ranking_perm col (before_asc col) df) as Pa.
  pose proof (ranking_desc_sorted col df) as Sd.
  pose proof (ranking_asc_sorted col df) as Sa.
  destruct (in_firstn_split _ _ _ Htop) as (p & s & Ed & Hp).
  destruct (in_firstn_split _ _ _ Hbottom) as (p' & s' & Ea & Hp').
  rewrite Ed in Pd, Sd. rewrite Ea in Pa, Sa.
  assert (In a df) as Ha
    by (eapply Permutation_in; [exact Pd|apply in_or_app; right; left; reflexivity]).
  assert (incl df (a :: p ++ p')) as Hincl.
  { intros b Hb.
    pose proof (Permutation_in b (Permutation_sym Pd) Hb) as Hbd.
    pose proof (Permutation_in b (Permutation_sym Pa) Hb) as Hba.
    apply in_app_or in Hbd as [Hbd|[<-|Hbd]];
      [right; apply in_or_app; left; exact Hbd|left; reflexivity|].
    apply in_app_or in Hba as [Hba|[<-|Hba]];
      [right; apply in_or_app; right; exact Hba|left; reflexivity|].
    left. apply Hdistinct; [exact Ha|exact Hb|].
    assert (desc_order col a b) as Hd
      by (apply (sorted_app_inv _ (p ++ [a]) s);
          [rewrite <- app_assoc; exact Sd
          |apply in_or_app; right; left; reflexivity|exact Hbd]).
    assert (asc_order col a b) as Hu
      by (apply (sorted_app_inv _ (p' ++ [a]) s');
          [rewrite <- app_assoc; exact Sa
          |apply in_or_app; right; left; reflexivity|exact Hba]).
    pose proof (Hval b Hb) as Hvb. unfold notna in Hvb.
    destruct Hd as [Hd|Hd]; [rewrite Hd in Hvb; discriminate|].
    destruct Hu as [Hu|Hu]; [rewrite Hu in Hvb; discriminate|].
    unfold num_eqb. rewrite Hd, Hu. reflexivity. }
  pose proof (NoDup_incl_length Hnd Hincl) as Hlen.
  simpl in Hlen. rewrite length_app in Hlen. lia.
Qed.

Lemma top_and_bottom_are_disjoint_witness :
  ~ In (with_pe (quote "C" 3) 20) (nsmallest change 1 pe_frame).
Proof.
  apply (top_and_bottom_are_disjoint change pe_frame 1).
  - apply NoDup_ListNoDup, NoDup_fmap_1 with (f := symbol).
    apply (bool_decide_unpack _). vm_compute. exact I.
  - intros r [<-|[<-|[<-|[]]]]; reflexivity.
  - intros r1 r2 [<-|[<-|[<-|[]]]] [<-|[<-|[<-|[]]]] Heq;
      first [reflexivity|vm_compute in Heq; discriminate].
  - vm_compute. lia.
  - vm_compute. left. reflexivity.
Defined.

(** ** The dashboard *)

Lemma filter_nil_iff {A : Type} (P : A -> bool) (l : list A) :
  List.filter P l = [] <-> (forall x, In x l -> P x = false).
Proof.
  split.
  - intros E x Hx. destruct (P x) eqn:Px; [|reflexivity].
    assert (In x (List.filter P l)) as Hin by (apply filter_In; auto).
    rewrite E in Hin. destruct Hin.
  - intros Hall. apply filter_none, List.Forall_forall. exact Hall.
Qed.

(** X6.  The dashboard shows its "No data available" state exactly when
    the download raised or not one symbol of the list could be processed;
    a single processed symbol is enough for the overview. *)
Theorem dashboard_no_data_iff
    (syms : list string) (yf_download : list string -> raises download)
    (ticker_info : string -> raises info) :
  dashboard_main (fst (load_stock_data syms yf_download ticker_info))
  = NoDataAvailable
  <->
  (exists e, yf_download syms = inl e) \/
  (exists data, yf_download syms = inr data /\
     forall s, In s syms ->
               succeeds (process_symbol syms data ticker_info s) = false).
Proof.
  unfold load_stock_data.
  destruct (yf_download syms) as [e|data] eqn:Hd.
  - simpl. split; [intros _; left; eauto|reflexivity].
  - pose proof (collect_symbols syms data ticker_info syms) as Hs.
    destruct (collect syms data ticker_info syms) as [rows warns].
    simpl in *. split.
    + intros Hnone. right. exists data. split; [reflexivity|].
      apply filter_nil_iff. rewrite <- Hs.
      destruct rows; [reflexivity|discriminate].
    + intros [[e He]|(data' & Hd' & Hall)]; [discriminate|].
      injection Hd' as <-.
      apply filter_nil_iff in Hall. rewrite Hall in Hs.
      destruct rows; [reflexivity|discriminate].
Qed.

(** ** Stock cards *)

Lemma digits_no_minus (n : N) (rest : string) : digits n <> String "-" rest.
Proof.
  unfold digits. destruct (N.to_uint n); simpl; discriminate.
Qed.

Lemma format_2f_abs_unsigned (x : num) (rest : string) :
  format_2f (num_abs x) <> String "-" rest.
Proof.
  destruct x as [q| | |]; simpl; try discriminate.
  assert (Qle_bool 0 (Qabs q) = true) as ->
    by (apply Qle_bool_iff, Qabs_nonneg).
  simpl.
  destruct (digits _) as [|c s] eqn:E.
  - simpl. discriminate.
  - simpl. intros Hx. injection Hx as -> _.
    exact (digits_no_minus _ _ E).
Qed.

(** X7.  On a stock card the direction of the change is carried by the
    arrow and the colour class alone, which always agree: up and
    positive exactly when the change is at least zero (a change that is
    NaN counts as down).  The number after the arrow is the absolute
    value to two decimals and never begins with a minus sign. *)
Theorem card_change_is_arrow_and_magnitude (stock : row) (is_top : bool) :
  let card := display_stock_card stock is_top in
  exists arrow magnitude,
    card_change card = (arrow ++ " " ++ magnitude ++ "%")%string /\
    magnitude = format_2f (num_abs (change stock)) /\
    (forall rest, magnitude <> String "-" rest) /\
    (nonneg (change stock) = true ->
     arrow = "↑" /\ card_change_class card = "positive-change") /\
    (nonneg (change stock) = false ->
     arrow = "↓" /\ card_change_class card = "negative-change").
Proof.
  intros card.
  exists (if nonneg (change stock) then "↑" else "↓"),
         (format_2f (num_abs (change stock))).
  unfold card, display_stock_card; simpl.
  split; [reflexivity|]. split; [reflexivity|].
  split; [apply format_2f_abs_unsigned|].
  split; intros ->; split; reflexivity.
Qed.

(** ** The sessions behind a row *)

Lemma iloc_last_two {A : Type} (f : list A) (t y : A) :
  iloc f (-1) = inr t -> iloc f (-2) = inr y ->
  exists earlier, f = earlier ++ [y; t].
Proof.
  unfold iloc. simpl.
  destruct (Z.of_nat (length f) + -1 <? 0)%Z eqn:E1; [discriminate|].
  destruct (Z.of_nat (length f) + -2 <? 0)%Z eqn:E2; [discriminate|].
  apply Z.ltb_ge in E1, E2.
  destruct (nth_error f (Z.to_nat (Z.of_nat (length f) + -1))) as [t'|] eqn:Ht;
    [|discriminate].
  destruct (nth_error f (Z.to_nat (Z.of_nat (length f) + -2))) as [y'|] eqn:Hy;
    [|discriminate].
  intros Et Ey. injection Et as ->. injection Ey as ->.
  replace (Z.to_nat (Z.of_nat (length f) + -1)) with (length f - 1)%nat in Ht by lia.
  replace (Z.to_nat (Z.of_nat (length f) + -2)) with (length f - 2)%nat in Hy by lia.
  assert (2 <= length f)%nat as Hn by lia. clear E1 E2.
  destruct (nth_error_split _ _ Hy) as (l1 & l2 & E & Hl1).
  exists l1. subst f. rewrite length_app in Hn, Hl1, Ht.
  destruct l2 as [|z l2]; simpl in Hn, Hl1, Ht; [lia|].
  destruct l2 as [|z' l2]; simpl in Hn, Hl1, Ht; [|lia].
  rewrite nth_error_app2 in Ht by lia.
  replace (length l1 + 2 - 1 - length l1)%nat with 1%nat in Ht by lia.
  simpl in Ht. injection Ht as ->. reflexivity.
Qed.

(** X8.  For a list of several symbols, a row of the frame is built from
    the last two sessions of its symbol in the download: the price and
    the volume are those of the last session, and the change compares its
    close with the close of the session before. *)
Theorem row_is_built_from_last_two_sessions
    (syms : list string) (cols : gmap string (list bar))
    (ticker_info : string -> raises info) (sym : string) (r : row) :
  length syms <> 1%nat ->
  process_symbol syms (Grouped cols) ticker_info sym = inr r ->
  exists earlier prev last,
    cols !! sym = Some (earlier ++ [prev; last]) /\
    price r = Close last /\
    volume r = Volume last /\
    change r = pct_change (Close last) (Close prev).
Proof.
  intros Hlen. apply Nat.eqb_neq in Hlen.
  unfold process_symbol, select_days, bind. rewrite Hlen. simpl.
  destruct (cols !! sym) as [f|] eqn:Hf; [|discriminate].
  destruct (iloc f (-1)) as [e|t] eqn:Ht; [discriminate|].
  destruct (iloc f (-2)) as [e|y] eqn:Hy; [discriminate|].
  destruct (ticker_info sym) as [e|inf]; [discriminate|].
  simpl. intros Hr. injection Hr as <-. simpl.
  destruct (iloc_last_two f t y Ht Hy) as (earlier & ->).
  exists earlier, y, t. repeat split; reflexivity.
Qed.

Lemma row_is_built_from_last_two_sessions_witness :
  exists r earlier prev last,
    process_symbol ["A"; "B"] zero_prior_data (fun _ => inr no_info) "A" = inr r /\
    earlier ++ [prev; last] = [session_of 100; session_of 110] /\
    price r = Close last.
Proof.
  destruct (process_symbol ["A"; "B"] zero_prior_data (fun _ => inr no_info) "A")
    as [e|r] eqn:E; [vm_compute in E; discriminate|].
  destruct (row_is_built_from_last_two_sessions
              ["A"; "B"] _ (fun _ => inr no_info) "A" r ltac:(simpl; lia) E)
    as (earlier & prev & last & Hcols & Hprice & _).
  exists r, earlier, prev, last. split; [reflexivity|].
  split; [|exact Hprice].
  vm_compute in Hcols. injection Hcols as Hcols. symmetry. exact Hcols.
Defined.

(** ** The part of the forecast that is drawn *)

(** X10.  [plot_prediction] draws the last [prediction_days] points of a
    column when the column has that many, and the whole column otherwise;
    for zero days it also draws the whole column, since [s[-0:]] is
    [s[0:]]. *)
Theorem forecast_view_length {A : Type} (column : list A) (prediction_days : nat) :
  length (forecast_view column prediction_days)
  = if (prediction_days =? 0)%nat then length column
    else Nat.min prediction_days (length column).
Proof.
  unfold forecast_view, slice_from. rewrite length_skipn.
  destruct prediction_days as [|n]; simpl Nat.eqb; cbv iota.
  - simpl. rewrite Z.min_l by lia. simpl. lia.
  - destruct (- Z.of_nat (S n) <? 0)%Z eqn:E; [|apply Z.ltb_ge in E; lia].
    lia.
Qed.

(** ** The prediction page *)

Lemma iloc_last {A : Type} (l : list A) (x : A) :
  iloc (l ++ [x]) (-1) = inr x.
Proof.
  unfold iloc. rewrite length_app. simpl.
  destruct (Z.of_nat (length l + 1) + -1 <? 0)%Z eqn:E;
    [apply Z.ltb_lt in E; lia|].
  replace (Z.to_nat (Z.of_nat (length l + 1) + -1)) with (length l) by lia.
  rewrite nth_error_app2 by lia. rewrite Nat.sub_diag. reflexivity.
Qed.

Lemma future_days_last {params : Type} (m : prophet params) (n : nat) :
  future_days m (S n)
  = future_days m n ++ [(max_date (history_dates m) + Z.of_nat (S n))%Z].
Proof.
  unfold future_days. rewrite seq_S, map_app. reflexivity.
Qed.

Lemma load_historical_data_nonempty
    (ticker_history : string -> Z -> raises history)
    (sym : string) (years : Z) (h : history) :
  load_historical_data ticker_history sym years = Some h ->
  h <> [] /\ ticker_history sym years = inr h.
Proof.
  unfold load_historical_data.
  destruct (ticker_history sym years) as [e|[|o h']]; try discriminate.
  intros E. injection E as <-. split; [discriminate|reflexivity].
Qed.

(** X11.  When the page gets as far as a forecast for a positive number
    of days, the "Predicted Price" it shows is Prophet's point estimate
    for the day that lies [prediction_days] days after the last day of
    the history, the percentage beside it is its change against the
    current price of the snapshot, and the "Prediction Confidence" is
    half the width of the interval of that same day. *)
Theorem predicted_price_is_for_the_last_day
    (params : Type) (fit_params : history -> raises params)
    (predict_point : params -> Z -> num * num * num)
    (ticker_history : string -> Z -> raises history)
    (df : frame) (selected_stock : string) (prediction_days : nat)
    (stock : row) (h : history) (m : prophet params)
    (forecast : list forecast_row) (point lower upper : num) :
  stock_info df selected_stock = inr stock ->
  load_historical_data ticker_history selected_stock 2 = Some h ->
  train_prophet_model params fit_params predict_point h prediction_days
  = inr (m, forecast) ->
  (0 < prediction_days)%nat ->
  predict_point (fitted m)
    (max_date (history_dates m) + Z.of_nat prediction_days)%Z
  = (point, lower, upper) ->
  exists view,
    prediction_main params fit_params predict_point ticker_history
      (Some df) selected_stock prediction_days
    = inr (Prediction view) /\
    pv_predicted_price view = point /\
    pv_price_change view = pct_change point (price stock) /\
    pv_confidence view = num_div (num_sub upper lower) (num_of_Z 2) /\
    pv_figure view = plot_prediction h forecast prediction_days.
Proof.
  intros Hstock Hload Htrain Hpos Hpoint.
  destruct (load_historical_data_nonempty _ _ _ _ Hload) as [Hne _].
  assert (df <> []) as Hdf.
  { intros ->. unfold stock_info in Hstock. simpl in Hstock. discriminate. }
  pose proof Htrain as Hinv. apply train_inv in Hinv as [_ Hfc].
  destruct prediction_days as [|n]; [lia|].
  assert (exists earlier,
             forecast
             = earlier ++ [{| f_ds := (max_date (history_dates m) + Z.of_nat (S n))%Z;
                              yhat := point; yhat_lower := lower;
                              yhat_upper := upper |}]) as (earlier & Hlast).
  { exists (predict params predict_point m (history_dates m ++ future_days m n)).
    rewrite Hfc, future_days_last, app_assoc. unfold predict.
    rewrite map_app. simpl. rewrite Hpoint. reflexivity. }
  unfold prediction_main.
  destruct df as [|r0 df0]; [congruence|].
  rewrite Hstock. unfold bind at 1. rewrite Hload.
  destruct h as [|o h0]; [congruence|].
  rewrite Htrain. unfold bind at 1. simpl snd.
  rewrite Hlast, !map_app. simpl map. rewrite !iloc_last.
  unfold bind. eexists. split; [reflexivity|]. simpl.
  repeat split; reflexivity.
Qed.

Lemma predicted_price_is_for_the_last_day_witness :
  exists view,
    prediction_main num carry_fit carry_predict (fun _ _ => inr history10)
      (Some tied_frame) "MSFT" 30
    = inr (Prediction view) /\
    pv_predicted_price view = num_of_Z 109.
Proof.
  destruct (train_prophet_model num carry_fit carry_predict history10 30)
    as [e|[m forecast]] eqn:E; [vm_compute in E; discriminate|].
  destruct (predicted_price_is_for_the_last_day
              num carry_fit carry_predict (fun _ _ => inr history10)
              tied_frame "MSFT" 30 (quote "MSFT" 1) history10 m forecast
              (fitted m) (fitted m) (fitted m)
              eq_refl eq_refl E ltac:(lia) eq_refl)
    as (view & Hpage & Hprice & _).
  exists view. split; [exact Hpage|].
  rewrite Hprice. vm_compute in E. injection E as <- _. reflexivity.
Defined.

(** X12.  The page only refuses an empty history.  A history that the
    source returns with fewer than two valued closes passes that test
    and the page ends in Prophet's [ValueError], for a stock that is in
    the snapshot. *)
Theorem short_history_ends_in_value_error
    (params : Type) (fit_params : history -> raises params)
    (predict_point : params -> Z -> num * num * num)
    (ticker_history : string -> Z -> raises history)
    (df : frame) (selected_stock : string) (prediction_days : nat)
    (h : history) :
  In selected_stock (map symbol df) ->
  ticker_history selected_stock 2%Z = inr h ->
  h <> [] ->
  (length (List.filter (fun o => notna (y o)) h) < 2)%nat ->
  prediction_main params fit_params predict_point ticker_history
    (Some df) selected_stock prediction_days
  = inl ValueError.
Proof.
  intros Hin Hsrc Hne Hshort.
  destruct (select_symbol_first df selected_stock Hin) as (r & rest & E & Hr & _).
  unfold prediction_main.
  destruct df as [|r0 df0]; [destruct Hr|].
  unfold stock_info. rewrite E, iloc_first. unfold bind at 1.
  unfold load_historical_data. rewrite Hsrc.
  destruct h as [|o h0]; [congruence|].
  unfold train_prophet_model, fit.
  apply Nat.ltb_lt in Hshort. rewrite Hshort. reflexivity.
Qed.

Lemma short_history_ends_in_value_error_witness :
  prediction_main num carry_fit carry_predict
    (fun _ _ => inr [{| ds := 0; y := num_of_Z 100 |}])
    (Some tied_frame) "MSFT" 30
  = inl ValueError.
Proof.
  apply short_history_ends_in_value_error
    with (h := [{| ds := 0; y := num_of_Z 100 |}]).
  - simpl. left. reflexivity.
  - reflexivity.
  - discriminate.
  - vm_compute. lia.
Defined.

(** ** The comparison page *)

Lemma first_value_of (df : frame) (sym : string) (col : row -> num) :
  first_value df sym col
  = match select_symbol df sym with
    | [] => inl IndexError
    | r :: _ => inr (col r)
    end.
Proof.
  unfold first_value. destruct (select_symbol df sym); reflexivity.
Qed.

(** X13.  The bar chart and the radar chart draw, for each stock, exactly
    the six numbers that [get_stock_metrics] returns for it, a missing
    P/E being drawn as NaN; they raise what [get_stock_metrics] raises,
    for the first stock first. *)
Theorem comparison_charts_show_the_metrics (df : frame) (stock1 stock2 : string) :
  let values := fun m : metrics =>
    [m_price m; m_change m; m_volume m; m_market_cap m;
     get (m_pe_ratio m) NaN; m_dividend_yield m] in
  create_comparison_chart df stock1 stock2
  = match get_stock_metrics df stock1, get_stock_metrics df stock2 with
    | inl e, _ => inl e
    | inr _, inl e => inl e
    | inr m1, inr m2 =>
        inr {| chart_x := metric_labels;
               chart_y1 := values m1; chart_y2 := values m2 |}
    end /\
  create_radar_chart df stock1 stock2
  = match get_stock_metrics df stock1, get_stock_metrics df stock2 with
    | inl e, _ => inl e
    | inr _, inl e => inl e
    | inr m1, inr m2 =>
        inr (map fst radar_metrics, values m1, values m2)
    end.
Proof.
  intros values. unfold create_comparison_chart, create_radar_chart,
    get_stock_metrics.
  rewrite !first_value_of, !iloc_first.
  destruct (select_symbol df stock1) as [|r1 rest1];
    destruct (select_symbol df stock2) as [|r2 rest2];
    split; reflexivity.
Qed.

(** X14.  For two symbols taken from the frame, as the select boxes offer
    them, the page never fails on a lookup.  Equal symbols give the
    warning; different symbols give the comparison, except when no row of
    the frame has a P/E: the column then holds [None], and formatting it
    for the "Valuation" card raises a [TypeError]. *)
Theorem comparison_page_for_offered_symbols
    (df : frame) (stock1 stock2 : string) :
  In stock1 (map symbol df) -> In stock2 (map symbol df) ->
  (stock1 = stock2 ->
   comparison_main (Some df) stock1 stock2 = inr SameStockWarning) /\
  (stock1 <> stock2 -> pe_is_object_column df = true ->
   comparison_main (Some df) stock1 stock2
   = inl (OtherError
            "TypeError: unsupported format string passed to NoneType.__format__")) /\
  (stock1 <> stock2 -> pe_is_object_column df = false ->
   exists m1 m2 view,
     get_stock_metrics df stock1 = inr m1 /\
     get_stock_metrics df stock2 = inr m2 /\
     comparison_main (Some df) stock1 stock2 = inr (Comparison view) /\
     cv_card1 view = comparison_card_of stock1 m1 /\
     cv_card2 view = comparison_card_of stock2 m2 /\
     cv_pe_text view
     = (format_2f (get (m_pe_ratio m1) NaN), format_2f (get (m_pe_ratio m2) NaN))).
Proof.
  intros H1 H2.
  destruct (select_symbol_first df stock1 H1) as (r1 & rest1 & E1 & Hr1 & _).
  destruct (select_symbol_first df stock2 H2) as (r2 & rest2 & E2 & _ & _).
  destruct df as [|r0 df0]; [destruct Hr1|].
  unfold comparison_main.
  split; [|split].
  - intros ->. rewrite String.eqb_refl. reflexivity.
  - intros Hne Hobj. apply String.eqb_neq in Hne. rewrite Hne.
    unfold get_stock_metrics, create_comparison_chart, create_radar_chart.
    rewrite !first_value_of, !iloc_first, E1, E2.
    unfold bind, format_pe. rewrite Hobj. reflexivity.
  - intros Hne Hobj. apply String.eqb_neq in Hne. rewrite Hne.
    unfold get_stock_metrics, create_comparison_chart, create_radar_chart.
    rewrite !first_value_of, !iloc_first, E1, E2.
    unfold bind, format_pe. rewrite Hobj.
    do 3 eexists. repeat split; reflexivity.
Qed.

Lemma comparison_page_for_offered_symbols_witness :
  comparison_main (Some tied_frame) "MSFT" "GOOGL"
  = inl (OtherError
           "TypeError: unsupported format string passed to NoneType.__format__") /\
  exists view,
    comparison_main (Some pe_frame) "A" "B" = inr (Comparison view) /\
    cv_pe_text view = ("10.00", "nan").
Proof.
  split.
  - apply (comparison_page_for_offered_symbols tied_frame "MSFT" "GOOGL");
      [simpl; auto|simpl; auto|discriminate|reflexivity].
  - destruct (comparison_page_for_offered_symbols pe_frame "A" "B")
      as (_ & _ & Hcmp); [simpl; auto|simpl; auto|].
    destruct (Hcmp ltac:(discriminate) eq_refl)
      as (m1 & m2 & view & Hm1 & Hm2 & Hpage & _ & _ & Hpe).
    exists view. split; [exact Hpage|].
    rewrite Hpe. vm_compute in Hm1, Hm2.
    injection Hm1 as <-. injection Hm2 as <-. vm_compute. reflexivity.
Defined.

(** ** Looking up what was loaded *)

Lemma collect_select
    (syms : list string) (data : download) (ticker_info : string -> raises info)
    (sym : string) (r : row) (todo : list string) :
  List.NoDup todo -> In sym todo ->
  process_symbol syms data ticker_info sym = inr r ->
  select_symbol (fst (collect syms data ticker_info todo)) sym = [r].
Proof.
  intros Hnd Hin Hp.
  induction todo as [|s rest IH]; [destruct Hin|].
  apply NoDup_cons_iff in Hnd as [Hs Hnd].
  pose proof (collect_symbols syms data ticker_info rest) as Hsyms.
  simpl. destruct (collect syms data ticker_info rest) as [rows warns].
  simpl in Hsyms, IH.
  destruct Hin as [->|Hin].
  - rewrite Hp. simpl.
    apply process_symbol_inv in Hp as (_ & _ & _ & _ & _ & _ & Hsym & _).
    unfold select_symbol. simpl. rewrite Hsym, String.eqb_refl. f_equal.
    apply select_symbol_empty. rewrite Hsyms. intros Hf.
    apply filter_In in Hf as [Hf _]. contradiction.
  - assert (s <> sym) as Hne by (intros ->; contradiction).
    destruct (process_symbol syms data ticker_info s) as [e|r'] eqn:E; simpl.
    + apply IH; assumption.
    + apply process_symbol_inv in E as (_ & _ & _ & _ & _ & _ & Hsym & _).
      unfold select_symbol. simpl. rewrite Hsym.
      apply String.eqb_neq in Hne. rewrite Hne. apply IH; assumption.
Qed.

(** X15.  What is looked up is what was loaded: for a list of symbols
    without repetition, [get_stock_metrics] on the loaded frame returns,
    for every symbol whose processing succeeded, the values of the row
    that was built for that symbol. *)
Theorem lookup_returns_the_loaded_row
    (syms : list string) (yf_download : list string -> raises download)
    (ticker_info : string -> raises info) (data : download)
    (sym : string) (r : row) :
  List.NoDup syms ->
  yf_download syms = inr data ->
  In sym syms ->
  process_symbol syms data ticker_info sym = inr r ->
  exists df,
    fst (load_stock_data syms yf_download ticker_info) = Some df /\
    stock_info df sym = inr r /\
    get_stock_metrics df sym
    = inr {| m_price := price r; m_change := change r;
             m_volume := volume r; m_market_cap := market_cap r;
             m_pe_ratio := pe_ratio r;
             m_dividend_yield := dividend_yield r;
             m_sector := sector r |}.
Proof.
  intros Hnd Hd Hin Hp.
  pose proof (collect_select syms data ticker_info sym r syms Hnd Hin Hp) as Hsel.
  unfold load_stock_data. rewrite Hd.
  destruct (collect syms data ticker_info syms) as [rows warns].
  simpl in *. exists rows. split; [reflexivity|].
  unfold stock_info, get_stock_metrics. rewrite Hsel. split; reflexivity.
Qed.

Lemma lookup_returns_the_loaded_row_witness :
  exists df r,
    fst (load_stock_data abc_symbols abc_download abc_info) = Some df /\
    stock_info df "C" = inr r /\ price r = num_of_Z 20.
Proof.
  destruct (process_symbol abc_symbols abc_data abc_info "C")
    as [e|r] eqn:E; [vm_compute in E; discriminate|].
  destruct (lookup_returns_the_loaded_row
              abc_symbols abc_download abc_info abc_data "C" r)
    as (df & Hl & Hs & _).
  - apply NoDup_ListNoDup, (bool_decide_unpack _). vm_compute. exact I.
  - reflexivity.
  - simpl. auto.
  - exact E.
  - exists df, r. split; [exact Hl|]. split; [exact Hs|].
    vm_compute in E. injection E as <-. reflexivity.
Defined.

(** ** The most active stocks *)

(** X16.  The bars of the "Most Active Stocks" chart are the
    [min n |df|] rows of [get_most_active_stocks] in their order: each
    bar's volume is at least that of every bar after it that has a
    volume, and the text on a bar is its volume without decimals. *)
Theorem active_chart_is_ordered_by_volume (df : frame) (n : nat) :
  let bars := create_active_stocks_chart (get_most_active_stocks df n) in
  length bars = Nat.min n (length df) /\
  StronglySorted
    (fun a b => is_nan (snd (fst b)) = true
                \/ num_leb (snd (fst b)) (snd (fst a)) = true) bars /\
  Forall (fun bar => snd bar = format_comma_0f (snd (fst bar))) bars.
Proof.
  intros bars. unfold bars, create_active_stocks_chart, get_most_active_stocks,
    nlargest.
  split; [|split].
  - rewrite length_map, length_firstn,
      (Permutation_length (ranking_perm volume (before_desc volume) df)).
    reflexivity.
  - pose proof (sorted_firstn _ n _ (ranking_desc_sorted volume df)) as Hs.
    induction Hs as [|a l _ IH Ha]; simpl; constructor; [exact IH|].
    apply List.Forall_forall. intros bar Hbar.
    apply in_map_iff in Hbar as (b & <- & Hb). simpl.
    rewrite List.Forall_forall in Ha. exact (Ha b Hb).
  - apply List.Forall_forall. intros bar Hbar.
    apply in_map_iff in Hbar as (b & <- & _). reflexivity.
Qed.

(** ** The smaller charts of the comparison page *)

Lemma select_symbol_single (df : frame) (sym : string) :
  List.NoDup (map symbol df) -> In sym (map symbol df) ->
  exists r, select_symbol df sym = [r] /\ In r df /\ symbol r = sym.
Proof.
  induction df as [|r0 df IH]; simpl; intros Hnd Hin; [destruct Hin|].
  apply NoDup_cons_iff in Hnd as [Hr0 Hnd].
  unfold select_symbol. simpl.
  destruct (String.eqb (symbol r0) sym) eqn:E.
  - apply String.eqb_eq in E. exists r0. split; [|auto].
    f_equal. apply select_symbol_empty. rewrite <- E. exact Hr0.
  - apply String.eqb_neq in E.
    destruct Hin as [Hin|Hin]; [contradiction|].
    destruct (IH Hnd Hin) as (r & Hsel & Hr & Hs).
    exists r. auto.
Qed.

Lemma filter_either {A : Type} (P Q : A -> bool) (l : list A) :
  (forall x, P x = true -> Q x = false) ->
  Permutation (List.filter (fun x => P x || Q x) l)
              (List.filter P l ++ List.filter Q l).
Proof.
  intros Hdisj. induction l as [|x l IH]; simpl; [constructor|].
  destruct (P x) eqn:EP; simpl.
  - rewrite (Hdisj x EP). constructor. exact IH.
  - destruct (Q x); [|exact IH].
    apply Permutation_cons_app. exact IH.
Qed.

(** X17.  In a frame with one row per symbol and for two different
    symbols of it, each histogram of the "Volume Distribution" is drawn
    from a single value, the volume of its stock, and the frame behind
    the "Sector Distribution" pie holds the rows of the two stocks and
    nothing else. *)
Theorem small_charts_hold_the_two_stocks
    (df : frame) (stock1 stock2 : string) :
  List.NoDup (map symbol df) ->
  In stock1 (map symbol df) -> In stock2 (map symbol df) ->
  stock1 <> stock2 ->
  exists r1 r2,
    stock_info df stock1 = inr r1 /\ stock_info df stock2 = inr r2 /\
    create_volume_distribution df stock1 stock2 = ([volume r1], [volume r2]) /\
    Permutation (create_sector_pie_chart df stock1 stock2) [r1; r2].
Proof.
  intros Hnd H1 H2 Hne.
  destruct (select_symbol_single df stock1 Hnd H1) as (r1 & E1 & _ & _).
  destruct (select_symbol_single df stock2 Hnd H2) as (r2 & E2 & _ & _).
  exists r1, r2. unfold stock_info, create_volume_distribution.
  rewrite E1, E2. repeat split.
  unfold create_sector_pie_chart.
  rewrite filter_either.
  - fold (select_symbol df stock1). fold (select_symbol df stock2).
    rewrite E1, E2. reflexivity.
  - intros r Hr. apply String.eqb_eq in Hr. apply String.eqb_neq.
    rewrite Hr. exact Hne.
Qed.

Lemma small_charts_hold_the_two_stocks_witness :
  exists r1 r2,
    create_volume_distribution pe_frame "A" "C" = ([volume r1], [volume r2]) /\
    Permutation (create_sector_pie_chart pe_frame "A" "C") [r1; r2].
Proof.
  destruct (small_charts_hold_the_two_stocks pe_frame "A" "C")
    as (r1 & r2 & _ & _ & Hv & Hp).
  - apply NoDup_ListNoDup, (bool_decide_unpack _). vm_compute. exact I.
  - simpl. auto.
  - simpl. auto.
  - discriminate.
  - exists r1, r2. split; assumption.
Defined.
